(** * Multi-LLM Control Room: session setup, chat store and message routers

    A shallow embedding of

    - [frontend/components/SessionSetup.tsx] (the model list editor),
    - [frontend/lib/store.ts] and [frontend/app/page.tsx] (the chat store and
      the WebSocket message handler),
    - the routers, session manager and cost estimate of [ARCHITECTURE.md]
      (Python),

    followed by the properties the specification states about them.

    Conventions.  Numbers the code computes with are IEEE doubles, as in
    JavaScript and Python: the running totals of the frontend session
    ([PrimFloat.float], added with [PrimFloat.add]) and the cost estimate
    of the Azure adapter ([AzureFloat]).  The budget check and the usage
    totals of an event, which the source does not contain and the
    specification states over exact amounts, are over rationals [Q].
    Numbers that are only stored, passed on or compared (a temperature,
    the cost of one message) are written as [Q], token counts as [Z].
    Python [int] cursors are unbounded, hence [nat]; the positions that a
    coordinator selects are Python integers of either sign, hence [Z]. *)

From Stdlib Require Import QArith PrimFloat SpecFloat FloatOps.
From stdpp Require Import base list strings pretty gmap.

(* ===================================================================== *)
(** * Definitions *)
(* ===================================================================== *)

(** ** [store.ts]: data model of the frontend *)

Module Store.

(** [role: 'user' | 'assistant'] *)
Inductive Role := user | assistant.

(** [interface Message]; the optional fields are [option]s. *)
Record Message := mkMessage {
  msg_id : string;
  msg_role : Role;
  content : string;
  model_id : option string;
  timestamp : string;
  tokens : option Z;
  cost : option Q;
}.

(** [interface ModelConfig] *)
Record ModelConfig := mkModelConfig {
  id : string;
  provider : string;
  model_name : string;
  role : option string;
  system_prompt : option string;
  temperature : option Q;
  max_tokens : option Z;
}.

(** [status: 'idle' | 'active' | 'paused'] *)
Inductive Status := idle | active | paused.

(** [interface Session] *)
Record Session := mkSession {
  session_id : option string;
  routing_pattern : string;
  models : list ModelConfig;
  coordinator_model_id : option string;
  total_tokens : float;
  total_cost : float;
  status : Status;
}.

(** [interface ChatStore], state part.  The [ws] field holds a browser
    [WebSocket] object; only whether it is [null] is observable here. *)
Record ChatStore := mkChatStore {
  session : Session;
  messages : list Message;
  isConnected : bool;
  isLoading : bool;
  ws : option string;
}.

(** The initial store of [create<ChatStore>]. *)
Definition initial : ChatStore :=
  {| session := {| session_id := None; routing_pattern := "broadcast";
                   models := []; coordinator_model_id := None;
                   total_tokens := 0%float; total_cost := 0%float;
                   status := idle |};
     messages := []; isConnected := false; isLoading := false; ws := None |}.

Definition setSession (s : Session) (st : ChatStore) : ChatStore :=
  {| session := s; messages := messages st; isConnected := isConnected st;
     isLoading := isLoading st; ws := ws st |}.

(** [addMessage: (message) => set((state) =>
      ({ messages: [...state.messages, message] }))] *)
Definition addMessage (m : Message) (st : ChatStore) : ChatStore :=
  {| session := session st; messages := messages st ++ [m];
     isConnected := isConnected st; isLoading := isLoading st; ws := ws st |}.

Definition clearMessages (st : ChatStore) : ChatStore :=
  {| session := session st; messages := []; isConnected := isConnected st;
     isLoading := isLoading st; ws := ws st |}.

Definition setConnected (c : bool) (st : ChatStore) : ChatStore :=
  {| session := session st; messages := messages st; isConnected := c;
     isLoading := isLoading st; ws := ws st |}.

Definition setLoading (l : bool) (st : ChatStore) : ChatStore :=
  {| session := session st; messages := messages st;
     isConnected := isConnected st; isLoading := l; ws := ws st |}.

Definition setWebSocket (w : option string) (st : ChatStore) : ChatStore :=
  {| session := session st; messages := messages st;
     isConnected := isConnected st; isLoading := isLoading st; ws := w |}.

(** [updateSessionStats: (tokens, cost) => set((state) => ({ session:
      { ...state.session, total_tokens: state.session.total_tokens + tokens,
        total_cost: state.session.total_cost + cost } }))] *)
Definition updateSessionStats (tk c : float) (st : ChatStore) : ChatStore :=
  let s := session st in
  setSession
    {| session_id := session_id s; routing_pattern := routing_pattern s;
       models := models s; coordinator_model_id := coordinator_model_id s;
       total_tokens := PrimFloat.add (total_tokens s) tk;
       total_cost := PrimFloat.add (total_cost s) c; status := status s |} st.

End Store.

(** ** [SessionSetup.tsx]: the model list editor *)

Module SessionSetup.
Import Store.

(** The [currentModel] form state. *)
Record Draft := mkDraft {
  d_provider : string;
  d_model_name : string;
  d_role : string;
}.

(** The three [useState] cells of the component. *)
Record State := mkState {
  routing : string;
  models : list ModelConfig;
  currentModel : Draft;
}.

Definition blank : Draft :=
  {| d_provider := "ollama"; d_model_name := ""; d_role := "" |}.

Definition initial : State :=
  {| routing := "broadcast"; models := []; currentModel := blank |}.

(** JavaScript truthiness of a string: every string but the empty one. *)
Definition truthy (s : string) : bool :=
  match s with EmptyString => false | String _ _ => true end.

(** The template literal [`model_${n}`]. *)
Definition model_tag (n : nat) : string := "model_" +:+ pretty n.

(** [addModel]: guarded by a non-empty model name and [models.length < 5];
    the new entry takes the identifier [`model_${models.length + 1}`], the
    draft's fields and temperature 0.7, and the draft is reset. *)
Definition addModel (st : State) : State :=
  if truthy (d_model_name (currentModel st)) && bool_decide (length (models st) < 5)
  then {| routing := routing st;
          models := models st ++
            [ {| id := model_tag (length (models st) + 1);
                 provider := d_provider (currentModel st);
                 model_name := d_model_name (currentModel st);
                 role := Some (d_role (currentModel st));
                 system_prompt := None;
                 temperature := Some (7 # 10)%Q;
                 max_tokens := None |} ];
          currentModel := blank |}
  else st.

(** [removeModel]: [setModels(models.filter((m) => m.id !== id))]. *)
Definition removeModel (x : string) (st : State) : State :=
  {| routing := routing st;
     models := filter (λ m, id m ≠ x) (models st);
     currentModel := currentModel st |}.

(** [handleStart]: calls [onStart(routing, models)] only when
    [models.length > 0]; [None] stands for "the callback is not called". *)
Definition handleStart (st : State) : option (string * list ModelConfig) :=
  if bool_decide (0 < length (models st))
  then Some (routing st, models st) else None.

(** What a user can do to the form. *)
Inductive Action :=
| SetRouting (r : string)
| SetCurrentModel (d : Draft)
| AddModel
| RemoveModel (x : string).

Definition step (st : State) (a : Action) : State :=
  match a with
  | SetRouting r =>
      {| routing := r; models := models st; currentModel := currentModel st |}
  | SetCurrentModel d =>
      {| routing := routing st; models := models st; currentModel := d |}
  | AddModel => addModel st
  | RemoveModel x => removeModel x st
  end.

Definition run (acts : list Action) (st : State) : State :=
  foldl step st acts.

Definition ids (st : State) : list string := id <$> models st.

Definition is_removal (a : Action) : bool :=
  match a with RemoveModel _ => true | _ => false end.

(** Three models are added, nothing is removed. *)
Definition add_three : list Action :=
  [ SetCurrentModel {| d_provider := "ollama"; d_model_name := "llama2"; d_role := "General" |};
    AddModel;
    SetCurrentModel {| d_provider := "lmstudio"; d_model_name := "codellama"; d_role := "Coder" |};
    AddModel;
    SetRouting "voting";
    SetCurrentModel {| d_provider := "azure_openai"; d_model_name := "gpt-4"; d_role := "" |};
    AddModel ].

(** Every configured model has temperature 0.7. *)
Definition default_temperature (m : ModelConfig) : Prop :=
  temperature m = Some (7 # 10)%Q.

(** Two models are added, the first is removed, a third is added. *)
Definition add_remove_add : list Action :=
  [ SetCurrentModel {| d_provider := "ollama"; d_model_name := "llama2"; d_role := "General" |};
    AddModel;
    SetCurrentModel {| d_provider := "ollama"; d_model_name := "codellama"; d_role := "Coder" |};
    AddModel;
    RemoveModel "model_1";
    SetCurrentModel {| d_provider := "ollama"; d_model_name := "mistral"; d_role := "" |};
    AddModel ].

End SessionSetup.

(** ** [api.ts]: the session creation request *)

Module Api.

(** One entry of [config.models] in [CreateSessionRequest]. *)
Record RequestModel := mkRequestModel {
  q_provider : string;
  q_model_name : string;
  q_role : option string;
  q_system_prompt : option string;
  q_temperature : option Q;
  q_max_tokens : option Z;
}.

(** [CreateSessionRequest.config]. *)
Record CreateSessionRequest := mkCreateSessionRequest {
  q_routing_pattern : string;
  q_models : list RequestModel;
  q_coordinator_model_id : option string;
  q_cost_limit : option Q;
}.

End Api.

(** ** [page.tsx]: the WebSocket message handler *)

Module Page.
Import Store.

(** [JSON.parse(event.data)], seen through the fields that the handler
    reads for each value of [data.type].  The totals of a
    [response_complete] frame are JavaScript numbers, as
    [updateSessionStats] declares them. *)
Inductive WsData :=
| UserMessage (d_content : string)
| ModelResponse (d_model_id d_content d_timestamp : string)
                (d_tokens : option Z) (d_cost : option Q)
| ResponseComplete (d_total_tokens d_total_cost : float)
| ErrorData (d_message : string)
| OtherData (d_type : string).

(** The two readings of the wall clock taken by the handler:
    [Date.now().toString()] and [new Date().toISOString()]. *)
Record Clock := mkClock { now_ms : string; now_iso : string }.

(** [socket.onmessage]. *)
Definition onmessage (clk : Clock) (data : WsData) (st : ChatStore) : ChatStore :=
  match data with
  | UserMessage c =>
      addMessage {| msg_id := now_ms clk; msg_role := user; content := c;
                    model_id := None; timestamp := now_iso clk;
                    tokens := None; cost := None |} st
  | ModelResponse mid c ts tk cs =>
      setLoading false
        (addMessage {| msg_id := now_ms clk +:+ "_" +:+ mid;
                       msg_role := assistant; content := c;
                       model_id := Some mid; timestamp := ts;
                       tokens := tk; cost := cs |} st)
  | ResponseComplete tot_tokens tot_cost =>
      setLoading false (updateSessionStats tot_tokens tot_cost st)
  | ErrorData _ => setLoading false st
  | OtherData _ => st
  end.

(** The message, if any, that one frame adds to the store. *)
Definition message_of (clk : Clock) (data : WsData) : list Message :=
  match data with
  | UserMessage c =>
      [ {| msg_id := now_ms clk; msg_role := user; content := c;
           model_id := None; timestamp := now_iso clk;
           tokens := None; cost := None |} ]
  | ModelResponse mid c ts tk cs =>
      [ {| msg_id := now_ms clk +:+ "_" +:+ mid; msg_role := assistant;
           content := c; model_id := Some mid; timestamp := ts;
           tokens := tk; cost := cs |} ]
  | _ => []
  end.

(** Frames handled one after the other, in arrival order. *)
Definition receive (frames : list (Clock * WsData)) (st : ChatStore) : ChatStore :=
  foldl (λ s f, onmessage f.1 f.2 s) st frames.

(** The totals carried by the [response_complete] frames, in arrival
    order. *)
Definition completions (frames : list (Clock * WsData)) : list (float * float) :=
  omap (λ f, match f.2 with
             | ResponseComplete tk c => Some (tk, c)
             | _ => None
             end) frames.

(** JavaScript [x || d] on an optional number: [d] replaces [undefined]
    and the falsy number 0. *)
Definition number_or (x : option Q) (d : Q) : Q :=
  match x with
  | Some q => if Qeq_bool q 0 then d else q
  | None => d
  end.

(** The argument that [handleStartSession] gives to [api.createSession]:
    [{ config: { routing_pattern: routing, models: models.map((m) =>
       ({ provider: m.provider, model_name: m.model_name, role: m.role,
          temperature: m.temperature || 0.7 })) } }]. *)
Definition session_request (routing : string) (models : list ModelConfig)
    : Api.CreateSessionRequest :=
  {| Api.q_routing_pattern := routing;
     Api.q_models :=
       (λ m, {| Api.q_provider := provider m;
                Api.q_model_name := model_name m;
                Api.q_role := role m;
                Api.q_system_prompt := None;
                Api.q_temperature := Some (number_or (temperature m) (7 # 10)%Q);
                Api.q_max_tokens := None |}) <$> models;
     Api.q_coordinator_model_id := None;
     Api.q_cost_limit := None |}.

(** The frame given to [ws.send] by [handleSendMessage]:
    [{ action: 'send_message', content, temperature: 0.7 }]. *)
Record Outgoing := mkOutgoing {
  o_action : string;
  o_content : string;
  o_temperature : Q;
}.

(** The [Home] component: the store, the [sessionStarted] cell, the
    frames handed to [ws.send] and the texts shown with [alert]. *)
Record Home := mkHome {
  store : ChatStore;
  sessionStarted : bool;
  sent : list Outgoing;
  alerts : list string;
}.

Definition on_store (f : ChatStore → ChatStore) (h : Home) : Home :=
  {| store := f (store h); sessionStarted := sessionStarted h;
     sent := sent h; alerts := alerts h |}.

(** [socket.onopen], [socket.onerror] and [socket.onclose]. *)
Definition onopen (h : Home) : Home :=
  on_store (λ st, setLoading false (setConnected true st)) h.
Definition onerror (h : Home) : Home :=
  on_store (λ st, setLoading false (setConnected false st)) h.
Definition onclose (h : Home) : Home :=
  on_store (λ st, setLoading false (setConnected false st)) h.

(** [handleSendMessage]: refused with an alert when there is no socket or
    the session is not connected; otherwise the loading flag is raised and
    one frame is sent. *)
Definition handleSendMessage (text : string) (h : Home) : Home :=
  match ws (store h), isConnected (store h) with
  | Some _, true =>
      {| store := setLoading true (store h);
         sessionStarted := sessionStarted h;
         sent := sent h ++ [ {| o_action := "send_message"; o_content := text;
                                o_temperature := (7 # 10)%Q |} ];
         alerts := alerts h |}
  | _, _ =>
      {| store := store h; sessionStarted := sessionStarted h; sent := sent h;
         alerts := alerts h ++ ["Not connected to session"] |}
  end.

(** [handleReset].  [ws.close()] itself changes nothing here: the socket
    answers it later with the event handled by [onclose]. *)
Definition handleReset (h : Home) : Home :=
  {| store :=
       setConnected false
         (setSession {| session_id := None; routing_pattern := "broadcast";
                        models := []; coordinator_model_id := None;
                        total_tokens := 0%float; total_cost := 0%float;
                        status := idle |}
            (clearMessages (setWebSocket None (store h))));
     sessionStarted := false;
     sent := sent h;
     alerts := alerts h |}.


(** What [await api.createSession(...)] comes to: the session data of
    the response, of which [id] is read, or a thrown [Error] with its
    message. *)
Inductive CreateOutcome :=
| Created (new_id : string)
| Failed (message : string).

(** [handleStartSession], after the request of [session_request] has been
    answered.  [ws_url] is the constant [WS_URL]; the socket made by
    [connectWebSocket] is kept as its address, and its events arrive later
    through [onopen], [onmessage], [onerror] and [onclose].  The
    constructor of the socket is taken not to throw. *)
Definition handleStartSession (ws_url : string) (outcome : CreateOutcome)
    (routing : string) (models : list ModelConfig) (h : Home) : Home :=
  match outcome with
  | Created new_id =>
      {| store :=
           setWebSocket (Some (ws_url +:+ "/ws/" +:+ new_id))
             (setSession {| session_id := Some new_id; routing_pattern := routing;
                            models := models; coordinator_model_id := None;
                            total_tokens := 0%float; total_cost := 0%float;
                            status := active |}
                (setLoading true (store h)));
         sessionStarted := true;
         sent := sent h;
         alerts := alerts h |}
  | Failed message =>
      {| store := setLoading false (setLoading true (store h));
         sessionStarted := sessionStarted h;
         sent := sent h;
         alerts := alerts h ++ ["Failed to start session: " +:+ message] |}
  end.

(** The text that [socket.onmessage] shows with [alert] for an error
    frame: [`Error: ${data.message}`]. *)
Definition frame_alerts (data : WsData) : list string :=
  match data with
  | ErrorData message => ["Error: " +:+ message]
  | _ => []
  end.

(** What can happen to the page. *)
Inductive HomeEvent :=
| EvStart (ws_url : string) (outcome : CreateOutcome)
          (routing : string) (models : list ModelConfig)
| EvOpen
| EvMessage (clk : Clock) (data : WsData)
| EvError
| EvClose
| EvSubmit (text : string)
| EvReset.

Definition home_step (h : Home) (ev : HomeEvent) : Home :=
  match ev with
  | EvStart ws_url outcome routing models =>
      handleStartSession ws_url outcome routing models h
  | EvOpen => onopen h
  | EvMessage clk data =>
    {| store := onmessage clk data (store h);
       sessionStarted := sessionStarted h;
       sent := sent h;
       alerts := alerts h ++ frame_alerts data |}
  | EvError => onerror h
  | EvClose => onclose h
  | EvSubmit text => handleSendMessage text h
  | EvReset => handleReset h
  end.

Definition home_run (evs : list HomeEvent) (h : Home) : Home :=
  foldl home_step h evs.

Definition is_open (ev : HomeEvent) : bool :=
  match ev with EvOpen => true | _ => false end.

(** The texts submitted, in order. *)
Definition submitted (evs : list HomeEvent) : list string :=
  omap (λ ev, match ev with EvSubmit text => Some text | _ => None end) evs.

(** The page before anything happened. *)
Definition home0 : Home :=
  {| store := Store.initial; sessionStarted := false; sent := []; alerts := [] |}.

End Page.

(** ** [ARCHITECTURE.md]: routers, session manager, cost estimate (Python) *)

Module Orchestrator.

(** Exceptions that the embedded code can raise.  [AdapterError] stands for
    whatever a provider adapter raises from [send], [vote] or
    [synthesize]; [ValueError] is what [AdapterFactory.create] raises for
    a bad configuration. *)
Inductive exn :=
| ZeroDivisionError
| IndexError
| KeyError (key : string)
| ValueError (msg : string)
| AdapterError (kind : string).

(** Python's [ZeroDivisionError] is a subclass of [ArithmeticError]. *)
Definition is_arithmetic_error (e : exn) : bool :=
  match e with ZeroDivisionError => true | _ => false end.

Definition is_configuration_error (e : exn) : bool :=
  match e with ValueError _ => true | _ => false end.

Inductive result (A : Type) :=
| Ok (a : A)
| Raise (e : exn).
Arguments Ok {A} a.
Arguments Raise {A} e.

Definition is_ok {A} (r : result A) : bool :=
  match r with Ok _ => true | Raise _ => false end.

(** A configured model object: what the routers read of it. *)
Record Model := mkModel { m_id : string; m_role : string }.

(** What an adapter returns from [send]. *)
Record Response := mkResponse {
  r_model : string;
  r_content : string;
  r_tokens : Z;
  r_cost : Q;
}.

(** The keyword argument [context=] of [send]: absent, the free variable
    [shared_history], or the dictionary built by the round-robin router.
    Of that dictionary [your_role] is kept; [previous_responses] is the
    value of [get_recent_history()], which the source does not define. *)
Inductive Context :=
| NoContext
| SharedHistory
| TurnContext (your_role : string).

(** Calls into model objects; the log of calls is the observable trace of
    what was dispatched, and to whom. *)
Inductive Call :=
| CSend (m : Model) (msg : string) (ctx : Context)
| CVote (m : Model) (proposals : list Response)
| CSynthesize (m : Model) (responses : list Response).

Definition callee (c : Call) : Model :=
  match c with CSend m _ _ | CVote m _ | CSynthesize m _ => m end.

(** The outside world: the outcome of the [k]-th call made so far.  A vote
    is the index of the chosen proposal in the list shown to the voter. *)
Record World := mkWorld {
  send_outcome : nat → Model → string → Context → result Response;
  vote_outcome : nat → Model → list Response → result nat;
  synthesize_outcome : nat → Model → list Response → result Response;
}.

(** Mutable state: the call log and [RoundRobinRouter.turn_index]. *)
Record Env := mkEnv { calls : list Call; turn_index : nat }.

Definition env0 : Env := {| calls := []; turn_index := 0 |}.

(** State and exception monad: an exception keeps the state reached when
    it was raised, as in Python. *)
Definition M (A : Type) : Type := Env → result A * Env.

Definition ret {A} (a : A) : M A := λ env, (Ok a, env).
Definition raise {A} (e : exn) : M A := λ env, (Raise e, env).
Definition bind {A B} (m : M A) (f : A → M B) : M B :=
  λ env, match m env with
         | (Ok a, env') => f a env'
         | (Raise e, env') => (Raise e, env')
         end.

Global Instance M_ret : MRet M := @ret.
Global Instance M_bind : MBind M := λ A B f m, bind m f.

Section Primitives.
Variable w : World.

Definition record (c : Call) (env : Env) : Env :=
  {| calls := calls env ++ [c]; turn_index := turn_index env |}.

(** [await model.send(msg, context=ctx)] *)
Definition send (m : Model) (msg : string) (ctx : Context) : M Response :=
  λ env, (send_outcome w (length (calls env)) m msg ctx,
          record (CSend m msg ctx) env).

(** [await model.vote(proposals)] *)
Definition vote (m : Model) (proposals : list Response) : M nat :=
  λ env, (vote_outcome w (length (calls env)) m proposals,
          record (CVote m proposals) env).

(** [await model.synthesize(responses)] *)
Definition synthesize (m : Model) (responses : list Response) : M Response :=
  λ env, (synthesize_outcome w (length (calls env)) m responses,
          record (CSynthesize m responses) env).
End Primitives.

(** [a % b] on non-negative Python integers. *)
Definition py_mod (a b : nat) : M nat :=
  match b with 0 => raise ZeroDivisionError | S _ => ret (a mod b) end.

(** [xs[i]] for a non-negative index. *)
Definition py_getitem {A} (xs : list A) (i : nat) : M A :=
  match xs !! i with Some x => ret x | None => raise IndexError end.

(** [xs[i]] for any Python integer: a negative index counts from the
    end, and an index outside [-len(xs) .. len(xs) - 1] has no element. *)
Definition index_int {A} (xs : list A) (i : Z) : option A :=
  if bool_decide (0 ≤ i)%Z then xs !! Z.to_nat i
  else if bool_decide (- Z.of_nat (length xs) ≤ i)%Z
       then xs !! Z.to_nat (Z.of_nat (length xs) + i)
       else None.

Definition py_getitem_int {A} (xs : list A) (i : Z) : M A :=
  match index_int xs i with Some x => ret x | None => raise IndexError end.

(** A call of a function that touches no state and returns or raises. *)
Definition lift {A} (r : result A) : M A := λ env, (r, env).

(** Every task handed to [asyncio.gather] is started, also when another
    one fails; the call log lists them in task order. *)
Fixpoint run_all {A} (tasks : list (M A)) (env : Env) : list (result A) * Env :=
  match tasks with
  | [] => ([], env)
  | t :: ts =>
      let '(r, env') := t env in
      let '(rs, env'') := run_all ts env' in
      (r :: rs, env'')
  end.

(** The value of [await asyncio.gather(...)] with the default
    [return_exceptions=False]: the list of results in task order, or the
    exception of a failed task.  With several failures the one that
    completes first in real time surfaces; the first in task order is
    taken here, and nothing below depends on which one it is. *)
Fixpoint collect {A} (rs : list (result A)) : result (list A) :=
  match rs with
  | [] => Ok []
  | Raise e :: _ => Raise e
  | Ok a :: rs' =>
      match collect rs' with Ok l => Ok (a :: l) | Raise e => Raise e end
  end.

Definition gather {A} (tasks : list (M A)) : M (list A) :=
  λ env, let '(rs, env') := run_all tasks env in (collect rs, env').

(** The outcomes of the sends that one [gather] starts: task [i] is the
    [(k + i)]-th call. *)
Fixpoint send_outcomes (w : World) (msg : string) (ctx : Context) (k : nat)
    (models : list Model) : list (result Response) :=
  match models with
  | [] => []
  | m :: ms => send_outcome w k m msg ctx :: send_outcomes w msg ctx (S k) ms
  end.

Fixpoint vote_outcomes (w : World) (ps : list Response) (k : nat)
    (models : list Model) : list (result nat) :=
  match models with
  | [] => []
  | m :: ms => vote_outcome w k m ps :: vote_outcomes w ps (S k) ms
  end.

(** The values of the tasks that succeeded, in task order. *)
Definition successes {A} (rs : list (result A)) : list A :=
  omap (λ r, match r with Ok a => Some a | Raise _ => None end) rs.

(** A list comprehension whose element expression can raise. *)
Fixpoint for_each {A B} (f : A → M B) (xs : list A) : M (list B) :=
  match xs with
  | [] => ret []
  | x :: xs' => y ← f x; ys ← for_each f xs'; ret (y :: ys)
  end.

(** *** Output events *)

(** Modelled from the spec: the typed events of a routing operation
    (section 6); the source has no declaration of them. *)
Inductive Event :=
| EResponse (r : Response)
| EFailure (endpoint : string) (kind : string)
| EVoteResult (winner : string)
| EComplete (total_tokens : Z) (total_cost : Q).

Definition is_response (e : Event) : bool :=
  match e with EResponse _ => true | _ => false end.
Definition is_failure (e : Event) : bool :=
  match e with EFailure _ _ => true | _ => false end.
Definition is_complete (e : Event) : bool :=
  match e with EComplete _ _ => true | _ => false end.

Definition count (p : Event → bool) (evs : list Event) : nat :=
  length (List.filter p evs).

Definition sum_tokens (rs : list Response) : Z :=
  foldr (λ r acc, (r_tokens r + acc)%Z) 0%Z rs.
Definition sum_cost (rs : list Response) : Q :=
  foldr (λ r acc, (r_cost r + acc)%Q) 0%Q rs.

(** Modelled from the spec: [format_responses], which the source calls but
    does not define.  One [response] event per response, in the order
    given, then the terminal [complete] event with the summed usage
    (sections 4.1 and 6). *)
Definition format_responses (responses : list Response) : list Event :=
  (EResponse <$> responses) ++ [EComplete (sum_tokens responses) (sum_cost responses)].

(** The events a caller receives from a routing operation: those returned,
    none when the operation raised. *)
Definition events_of (r : result (list Event)) : list Event :=
  match r with Ok evs => evs | Raise _ => [] end.

(** *** Pattern 1: [BroadcastRouter] *)

Module BroadcastRouter.
Definition route (w : World) (user_message : string)
    (active_models : list Model) : M (list Event) :=
  let tasks := (λ model, send w model user_message SharedHistory) <$> active_models in
  responses ← gather tasks;
  ret (format_responses responses).
End BroadcastRouter.

(** *** Pattern 2: [CoordinatorRouter] *)

Module CoordinatorRouter.

Definition nl : string := String (Ascii.ascii_of_nat 10) "".

Definition apostrophe : Ascii.ascii := Ascii.ascii_of_nat 39.
Definition double_quote : Ascii.ascii := Ascii.ascii_of_nat 34.
Definition backslash : Ascii.ascii := Ascii.ascii_of_nat 92.

Fixpoint contains (c : Ascii.ascii) (s : string) : bool :=
  match s with
  | EmptyString => false
  | String c' s' => bool_decide (c' = c) || contains c s'
  end.

Definition hex_digit (n : nat) : Ascii.ascii :=
  if bool_decide (n < 10) then Ascii.ascii_of_nat (48 + n)
  else Ascii.ascii_of_nat (87 + n).

(** One character inside [repr] of a string delimited by [quote]. *)
Definition py_escape (quote c : Ascii.ascii) : string :=
  let n := Ascii.nat_of_ascii c in
  if bool_decide (c = quote) || bool_decide (c = backslash)
  then String backslash (String c "")
  else if bool_decide (n = 9) then String backslash "t"
  else if bool_decide (n = 10) then String backslash "n"
  else if bool_decide (n = 13) then String backslash "r"
  else if bool_decide (n < 32) || bool_decide (n = 127)
  then String backslash "x"
       +:+ String (hex_digit (n / 16)) (String (hex_digit (n mod 16)) "")
  else String c "".

Fixpoint escape_all (quote : Ascii.ascii) (s : string) : string :=
  match s with
  | EmptyString => EmptyString
  | String c s' => py_escape quote c +:+ escape_all quote s'
  end.

(** Python's [repr] of a string: apostrophes around it, or double quotes
    when it holds an apostrophe and no double quote; the delimiter and
    the backslash escaped, tab, newline and carriage return by letter,
    the other control characters in hexadecimal.  A character above 127
    is kept, as Python keeps a printable one. *)
Definition py_repr (s : string) : string :=
  let quote := if contains apostrophe s && negb (contains double_quote s)
               then double_quote else apostrophe in
  String quote (escape_all quote s) +:+ String quote "".

(** [[m.role for m in specialist_models]] rendered inside an f-string:
    the [repr] of each role, separated by a comma and a space, in
    brackets. *)
Definition roles_repr (ms : list Model) : string :=
  "[" +:+ String.concat ", " ((λ m, py_repr (m_role m)) <$> ms) +:+ "]".

Definition plan_prompt (user_message : string) (ms : list Model) : string :=
  "Message: " +:+ user_message +:+ nl +:+
  "Specialists: " +:+ roles_repr ms +:+ nl +:+
  "Who should handle this? Return JSON.".

Section Route.
(** [parse_selection], a function of the module that the source calls
    with the plan alone and does not define: any function of the plan
    that returns a list of integer positions, or raises.  A result that
    [route] could not iterate over or index with would raise as well,
    before any specialist is called. *)
Variable parse_selection : Response → result (list Z).

Definition route (w : World) (coordinator : Model) (user_message : string)
    (specialist_models : list Model) : M Response :=
  plan ← send w coordinator (plan_prompt user_message specialist_models) NoContext;
  selected ← lift (parse_selection plan);
  chosen ← for_each (py_getitem_int specialist_models) selected;
  responses ← gather ((λ m, send w m user_message NoContext) <$> chosen);
  synthesize w coordinator responses.
End Route.

(** The specialists that a selection names, when every position is in
    range. *)
Fixpoint select (specialist_models : list Model) (selected : list Z)
    : option (list Model) :=
  match selected with
  | [] => Some []
  | i :: rest =>
      match index_int specialist_models i, select specialist_models rest with
      | Some m, Some ms => Some (m :: ms)
      | _, _ => None
      end
  end.

(** Every specialist was sent [msg]. *)
Definition all_dispatched (msg : string) (specialists : list Model)
    (env : Env) : Prop :=
  ∀ m, m ∈ specialists → CSend m msg NoContext ∈ calls env.

(** A [parse_selection] for the examples: it reads the two payloads
    listed and raises on any other text, as a JSON parser does. *)
Definition sample_parse (plan : Response) : result (list Z) :=
  if bool_decide (r_content plan = "[1]") then Ok [1%Z]
  else if bool_decide (r_content plan = "[0, 2]") then Ok [0%Z; 2%Z]
  else Raise (ValueError "no selection").

End CoordinatorRouter.

(** *** Pattern 3: [RoundRobinRouter] *)

Module RoundRobinRouter.

Definition get_turn_index : M nat := λ env, (Ok (turn_index env), env).
Definition set_turn_index (n : nat) : M unit :=
  λ env, (Ok (), {| calls := calls env; turn_index := n |}).

Definition route (w : World) (user_message : string)
    (active_models : list Model) : M Response :=
  t ← get_turn_index;
  i ← py_mod t (length active_models);
  current_model ← py_getitem active_models i;
  response ← send w current_model user_message (TurnContext (m_role current_model));
  t' ← get_turn_index;
  set_turn_index (t' + 1) ;;
  ret response.

(** Consecutive messages, each routed whatever became of the previous
    one (a caller that catches the exception and goes on). *)
Definition route_all (w : World) (msgs : list string)
    (active_models : list Model) (env : Env) : Env :=
  foldl (λ e msg, (route w msg active_models e).2) env msgs.

End RoundRobinRouter.

(** The endpoints dispatched to, in dispatch order. *)
Definition dispatch_order (env : Env) : list string :=
  (λ c, m_id (callee c)) <$> calls env.

(** The identifiers [models[(t + i) % len(models)]] for [i] below [k]. *)
Definition rotation (models : list Model) (t k : nat) : list string :=
  (λ i, from_option m_id "" (models !! ((t + i) mod length models))) <$> seq 0 k.

(** "The operation fails with a configuration error." *)
Definition fails_with_configuration_error {A} (r : result A) : Prop :=
  ∃ e, r = Raise e ∧ is_configuration_error e = true.

(** *** Pattern 4: [VotingRouter] *)

Module VotingRouter.

(** Number of votes cast for proposal [i]. *)
Definition votes_for (votes : list nat) (i : nat) : nat :=
  length (filter (λ v, v = i) votes).

Section FirstMax.
Variable score : nat → nat.

(** One step of the scan: a later index replaces the best one so far
    only with a strictly higher score. *)
Definition better (best i : nat) : nat :=
  if bool_decide (score best < score i) then i else best.

(** The index kept after scanning [0 .. n-1] in order. *)
Definition first_max (n : nat) : nat := foldl better 0 (seq 0 n).

(** [b] is the first index below [s] with the highest score. *)
Definition first_best (b s : nat) : Prop :=
  b < s
  ∧ (∀ j, j < s → score j ≤ score b)
  ∧ (∀ j, j < s → score j = score b → b ≤ j).
End FirstMax.

(** Modelled from the spec: [tally_votes], called but not defined in the
    source.  The proposal with the most votes wins; among proposals
    tied for the most votes, the one whose author comes first in the
    endpoint ordering (section 4.4).  [proposals] is in endpoint order,
    as [gather] returns it. *)
Definition winner_index (votes : list nat) (n : nat) : option nat :=
  match n with 0 => None | S _ => Some (first_max (votes_for votes) n) end.

Definition tally_votes (votes : list nat) (proposals : list Response)
    : option Response :=
  i ← winner_index votes (length proposals); proposals !! i.

Definition route (w : World) (user_message : string)
    (active_models : list Model) : M (option Response) :=
  proposals ← gather ((λ model, send w model user_message NoContext) <$> active_models);
  votes ← gather ((λ model, vote w model proposals) <$> active_models);
  let winner := tally_votes votes proposals in
  ret winner.

(** The endpoints asked to vote, with the proposals shown to each. *)
Definition voters (env : Env) : list (Model * list Response) :=
  omap (λ c, match c with CVote m ps => Some (m, ps) | _ => None end) (calls env).

End VotingRouter.

(** *** [SessionManager] *)

Module SessionManager.

Record Metadata := mkMetadata {
  created_at : string;
  tags : list string;
  youtube_run : bool;
}.

(** [SessionConfig]: the fields [create_session] reads. *)
Record SessionConfig := mkSessionConfig {
  c_routing_pattern : string;
  c_models : list Store.ModelConfig;
  c_tags : list string;
  c_is_youtube_run : bool;
}.

Section Manager.
(** What the result of a router iterates over; [send_message] only
    passes these items on. *)
Context {R : Type}.

(** Modelled from the spec: [ConversationHistory], used but not
    defined in the source.  An ordered log to which
    [add_user_message] and [add_model_response] append (sections 2
    and 3). *)
Inductive Entry :=
| UserEntry (message : string)
| ModelEntry (resp : R).

Definition add_user_message (message : string) (h : list Entry) : list Entry :=
  h ++ [UserEntry message].
Definition add_model_response (resp : R) (h : list Entry) : list Entry :=
  h ++ [ModelEntry resp].

Record Session := mkSession {
  s_id : string;
  s_routing_pattern : string;
  s_models : list Model;
  s_history : list Entry;
  s_metadata : Metadata;
}.

(** [self.sessions], the frames given to [emit_to_frontend] and the
    arguments given to [update_usage_metrics]. *)
Record Manager := mkManager {
  sessions : gmap string Session;
  emitted : list (string * R);
  usage_updates : list (string * list R);
}.

(** Helpers that the source calls but does not define. *)
Variable init_model : Store.ModelConfig → Model.
Variable get_router : string → string → list Model → M (list R).

(** [create_session]; [fresh_id] is the value of [generate_id()] and
    [now] that of [now()]. *)
Definition create_session (fresh_id now : string) (config : SessionConfig)
    (mgr : Manager) : Session * Manager :=
  let session :=
    {| s_id := fresh_id;
       s_routing_pattern := c_routing_pattern config;
       s_models := init_model <$> c_models config;
       s_history := [];
       s_metadata := {| created_at := now; tags := c_tags config;
                        youtube_run := c_is_youtube_run config |} |} in
  (session, {| sessions := <[fresh_id := session]> (sessions mgr);
               emitted := emitted mgr;
               usage_updates := usage_updates mgr |}).

Definition with_history (h : list Entry) (s : Session) : Session :=
  {| s_id := s_id s; s_routing_pattern := s_routing_pattern s;
     s_models := s_models s; s_history := h; s_metadata := s_metadata s |}.

(** [send_message].  The session object is shared with
    [self.sessions], so each change of its history is a change of the
    table. *)
Definition send_message (session_id message : string)
    (mgr : Manager) (env : Env) : result (list R) * Manager * Env :=
  match sessions mgr !! session_id with
  | None => (Raise (KeyError session_id), mgr, env)
  | Some session =>
      let router := get_router (s_routing_pattern session) in
      let h1 := add_user_message message (s_history session) in
      let mgr1 :=
        {| sessions := <[session_id := with_history h1 session]> (sessions mgr);
           emitted := emitted mgr; usage_updates := usage_updates mgr |} in
      match router message (s_models session) env with
      | (Raise e, env') => (Raise e, mgr1, env')
      | (Ok responses, env') =>
          let h2 := foldl (λ h resp, add_model_response resp h) h1 responses in
          (Ok responses,
           {| sessions := <[session_id := with_history h2 session]> (sessions mgr);
              emitted := emitted mgr ++ ((λ resp, (session_id, resp)) <$> responses);
              usage_updates := usage_updates mgr ++ [(session_id, responses)] |},
           env')
      end
  end.

(** The history read back for a session (empty when there is none). *)
Definition history_of (session_id : string) (mgr : Manager) : list Entry :=
  from_option s_history [] (sessions mgr !! session_id).

(** Messages sent one after the other, each after the previous call
    has returned or raised. *)
Definition send_all (session_id : string) (msgs : list string)
    (mgr : Manager) (env : Env) : Manager * Env :=
  foldl (λ st message,
           let '(_, mgr', env') := send_message session_id message st.1 st.2 in
           (mgr', env'))
        (mgr, env) msgs.

(** What a router returns for consecutive messages over the same models,
    each call starting in the state the previous one left: the results,
    in order, and the final state. *)
Fixpoint routed (router : string → list Model → M (list R))
    (models : list Model) (msgs : list string) (env : Env)
    : list (result (list R)) * Env :=
  match msgs with
  | [] => ([], env)
  | message :: rest =>
      let '(r, env') := router message models env in
      let '(rs, env'') := routed router models rest env' in
      (r :: rs, env'')
  end.

(** The history entries of one turn: the user message, then the items the
    router returned for it (none when it raised). *)
Definition turn_entries (message : string) (r : result (list R)) : list Entry :=
  UserEntry message
  :: (ModelEntry <$> match r with Ok items => items | Raise _ => [] end).
End Manager.

End SessionManager.

(** The items that [send_message] logs and emits for a turn: those the
    router returned, none when it raised. *)
Definition delivered {R} (r : result (list R)) : list R :=
  match r with Ok items => items | Raise _ => [] end.

(** The usage updates of a turn: one when the router returned. *)
Definition usage_of {R} (session_id : string) (r : result (list R))
    : list (string * list R) :=
  match r with Ok items => [(session_id, items)] | Raise _ => [] end.

(** A router table that answers every pattern with the round-robin router;
    [items] stands for what iterating over its single response yields. *)
Definition round_robin_router {R} (w : World) (items : Response → list R)
    : string → string → list Model → M (list R) :=
  λ _ message models,
    response ← RoundRobinRouter.route w message models; ret (items response).

(** *** Cost estimate and budget ceiling *)

(** [ModelAdapter.estimate_cost], the abstract method. *)
Class ModelAdapter (A : Type) := { estimate_cost : A → Z → Q }.

Record Rate := mkRate { rate_input : Q; rate_output : Q }.

Record AzureOpenAIAdapter := mkAzure {
  deployment_name : string;
  pricing : gmap string Rate;
}.

(** [AzureOpenAIAdapter.estimate_cost]:
    [rate = self.pricing.get(self.deployment_name, {"input": 0, "output": 0})],
    [return (tokens / 1000) * rate["output"]]. *)
Definition azure_estimate_cost (a : AzureOpenAIAdapter) (tokens : Z) : Q :=
  let rate := default {| rate_input := 0; rate_output := 0 |}
                      (pricing a !! deployment_name a) in
  ((inject_Z tokens / inject_Z 1000) * rate_output rate)%Q.

Global Instance azure_adapter : ModelAdapter AzureOpenAIAdapter :=
  {| estimate_cost := azure_estimate_cost |}.

(** [AzureOpenAIAdapter.estimate_cost] with the numbers as Python has
    them: [tokens] an integer of any size, the rates and the result
    binary64 doubles.  The budget check below, which the spec states over
    exact amounts, uses the rational estimate above. *)
Module AzureFloat.

(** An integer as an unrounded binary float. *)
Definition int_to_float (z : Z) : spec_float :=
  match z with
  | Z0 => S754_zero false
  | Zpos n => S754_finite false n 0
  | Zneg n => S754_finite true n 0
  end.

(** [a / b] on Python integers: the quotient of the two integers rounded
    once, to the nearest double with ties to even; [None] when Python
    raises, that is for [b = 0] ([ZeroDivisionError]) and for a quotient
    that rounds beyond the largest double ([OverflowError]). *)
Definition py_truediv (a b : Z) : option float :=
  if bool_decide (b = 0%Z) then None
  else match SFdiv prec emax (int_to_float a) (int_to_float b) with
       | S754_infinity _ => None
       | q => Some (SF2Prim q)
       end.

Record Rate := mkRate { input : float; output : float }.

Record AzureOpenAIAdapter := mkAzure {
  deployment_name : string;
  pricing : gmap string Rate;
}.

(** [rate = self.pricing.get(self.deployment_name, {"input": 0, "output": 0})],
    [return (tokens / 1000) * rate["output"]]. *)
Definition estimate_cost (self : AzureOpenAIAdapter) (tokens : Z) : option float :=
  let rate := default {| input := 0; output := 0 |}
                      (pricing self !! deployment_name self) in
  thousands ← py_truediv tokens 1000;
  Some (thousands * output rate)%float.

(** The doubles nearest to 0.03 and to 0.05. *)
Definition three_cents : float := 0x1.eb851eb851eb8p-6%float.
Definition five_cents : float := 0x1.999999999999ap-5%float.

Definition gpt4 : AzureOpenAIAdapter :=
  {| deployment_name := "gpt-4-deployment";
     pricing := {[ "gpt-4-deployment" := {| input := three_cents; output := five_cents |} ]} |}.

End AzureFloat.

Module UsageLedger.

(** The session's optional ceiling ([cost_limit] of
    [CreateSessionRequest]) and its cumulative cost. *)
Record Budget := mkBudget { cost_limit : option Q; session_cost : Q }.

(** Modelled from the spec: the budget pre-check, for which the source
    has the [cost_limit] field and [estimate_cost] but no code.  A
    dispatch is over budget when the cumulative cost plus the estimate
    is strictly above the ceiling (sections 3 and 7). *)
Definition over_budget (b : Budget) (estimate : Q) : bool :=
  match cost_limit b with
  | Some ceiling =>
      if Qlt_le_dec ceiling (session_cost b + estimate) then true else false
  | None => false
  end.

Definition error_kind (e : exn) : string :=
  match e with
  | AdapterError kind => kind
  | ZeroDivisionError | IndexError | KeyError _ | ValueError _ => "internal"
  end.

(** Modelled from the spec: one guarded dispatch.  The pre-check comes
    first; a refused dispatch yields a [failure] event of kind
    ["budget_exceeded"] and the adapter is not called. *)
Definition dispatch {A} `{ModelAdapter A} (w : World) (b : Budget)
    (adapter : A) (expected_tokens : Z) (m : Model) (msg : string) : M Event :=
  if over_budget b (estimate_cost adapter expected_tokens)
  then ret (EFailure (m_id m) "budget_exceeded")
  else λ env,
    match send w m msg NoContext env with
    | (Ok r, env') => (Ok (EResponse r), env')
    | (Raise e, env') => (Ok (EFailure (m_id m) (error_kind e)), env')
    end.

End UsageLedger.

(** *** [AdapterFactory] *)

Module AdapterFactory.

(** The adapter classes of the document, and [OtherClass] for a class
    defined elsewhere and handed to [register]. *)
Inductive AdapterClass :=
| OllamaClass
| LMStudioClass
| OobaboogaClass
| AzureOpenAIClass
| NVIDIANIMClass
| HuggingFaceClass
| GenericHTTPClass
| OtherClass (name : string).

(** The class attribute [_adapters]. *)
Definition _adapters : gmap string AdapterClass :=
  <["ollama" := OllamaClass]>
  (<["lmstudio" := LMStudioClass]>
  (<["oobabooga" := OobaboogaClass]>
  (<["azure_openai" := AzureOpenAIClass]>
  (<["nvidia" := NVIDIANIMClass]>
  (<["huggingface" := HuggingFaceClass]>
  (<["generic_http" := GenericHTTPClass]> ∅)))))).

(** [register]: [cls._adapters[name] = adapter_class]. *)
Definition register (name : string) (adapter_class : AdapterClass)
    (table : gmap string AdapterClass) : gmap string AdapterClass :=
  <[name := adapter_class]> table.

Section Create.
(** The constructor call of [create], which passes the entries of
    [config] as keyword arguments; its body depends on the class, and it
    may raise. *)
Context {Config Adapter : Type}.
Variable construct : AdapterClass → Config → result Adapter.

(** [create]: [adapter_class = cls._adapters.get(provider_type)], a
    [ValueError] when there is none, the constructor call otherwise. *)
Definition create (provider_type : string) (config : Config)
    (table : gmap string AdapterClass) : result Adapter :=
  match table !! provider_type with
  | None => Raise (ValueError ("Unknown provider: " +:+ provider_type))
  | Some adapter_class => construct adapter_class config
  end.
End Create.

End AdapterFactory.

(** *** [MCPServerManager] and the tool names of [ToolCallOrchestrator] *)

Module MCPServerManager.

(** A tool as listed by a server. *)
Record Tool := mkTool {
  tool_name : string;
  tool_description : string;
  tool_input_schema : string;
}.

(** One value of [self.servers]: the server handle and its tools. *)
Record ServerInfo := mkServerInfo {
  server : string;
  tools : list Tool;
}.

(** An OpenAI-compatible tool schema:
    [{"type": "function", "function": {"name": ..., "description": ...,
      "parameters": ...}}]. *)
Record Schema := mkSchema {
  schema_type : string;
  function_name : string;
  function_description : string;
  function_parameters : string;
}.

(** The schema appended for [tool] of the server registered as [name];
    its name is the f-string [{name}:{tool.name}]. *)
Definition tool_schema (name : string) (tool : Tool) : Schema :=
  {| schema_type := "function";
     function_name := name +:+ ":" +:+ tool_name tool;
     function_description := tool_description tool;
     function_parameters := tool_input_schema tool |}.

(** [get_tool_schemas_for_model]: the schemas of the tools of the servers
    named, in the order named; [self.servers[name]] raises [KeyError] for
    a name that is not registered. *)
Fixpoint get_tool_schemas_for_model (servers : gmap string ServerInfo)
    (server_names : list string) : result (list Schema) :=
  match server_names with
  | [] => Ok []
  | name :: rest =>
      match servers !! name with
      | None => Raise (KeyError name)
      | Some info =>
          match get_tool_schemas_for_model servers rest with
          | Ok schemas => Ok ((tool_schema name <$> tools info) ++ schemas)
          | Raise e => Raise e
          end
      end
  end.

(** The character [:], code 58. *)
Definition colon : Ascii.ascii := Ascii.ascii_of_nat 58.

(** [s.split(":", 1)]: [None] stands for the one-element list returned
    for a string without colon, [Some (a, b)] for the list [[a, b]] cut at
    the first colon. *)
Fixpoint split_colon (s : string) : option (string * string) :=
  match s with
  | EmptyString => None
  | String c rest =>
      if Ascii.eqb c colon then Some (EmptyString, rest)
      else match split_colon rest with
           | Some (a, b) => Some (String c a, b)
           | None => None
           end
  end.

(** [server_name, tool_name = tool_call.function.name.split(":", 1)]:
    unpacking a one-element list raises [ValueError]. *)
Definition unpack_tool_name (name : string) : result (string * string) :=
  match split_colon name with
  | Some p => Ok p
  | None => Raise (ValueError "not enough values to unpack (expected 2, got 1)")
  end.

(** The receiver and first argument of the [call_tool] that
    [handle_tool_calls] reaches through [execute_tool] for a tool call
    named [name]: [self.servers[server_name]["server"]] and [tool_name]. *)
Definition call_target (servers : gmap string ServerInfo) (name : string)
    : result (string * string) :=
  match unpack_tool_name name with
  | Raise e => Raise e
  | Ok (server_name, tool) =>
      match servers !! server_name with
      | None => Raise (KeyError server_name)
      | Some info => Ok (server info, tool)
      end
  end.

(** No colon occurs in the string. *)
Fixpoint colon_free (s : string) : bool :=
  match s with
  | EmptyString => true
  | String c rest => negb (Ascii.eqb c colon) && colon_free rest
  end.

End MCPServerManager.

(** *** Sample endpoints and worlds *)

Module Samples.

Definition A : Model := {| m_id := "A"; m_role := "architect" |}.
Definition B : Model := {| m_id := "B"; m_role := "coder" |}.
Definition C : Model := {| m_id := "C"; m_role := "reviewer" |}.

(** A coordinator that is not one of the specialists. *)
Definition K : Model := {| m_id := "K"; m_role := "coordinator" |}.

Definition reply (m : Model) (text : string) : Response :=
  {| r_model := m_id m; r_content := text; r_tokens := 10; r_cost := 1 # 100 |}.

(** A world in which the [k]-th call fails with a timeout exactly when
    [fails k id] holds for the callee [id]; a coordinator plan is the
    text [plan], and every voter picks proposal 0. *)
Definition world (fails : nat → string → bool) (plan : string) : World :=
  {| send_outcome k m msg ctx :=
       if fails k (m_id m) then Raise (AdapterError "timeout")
       else Ok (reply m (match ctx with NoContext => plan | _ => msg end));
     vote_outcome k m ps :=
       if fails k (m_id m) then Raise (AdapterError "timeout") else Ok 0;
     synthesize_outcome k m rs :=
       if fails k (m_id m) then Raise (AdapterError "timeout")
       else Ok (reply m "synthesis") |}.

Definition all_ok : World := world (λ _ _, false) "not a selection".

(** Endpoint B times out on every call. *)
Definition b_down : World :=
  world (λ _ id, bool_decide (id = "B")) "not a selection".


(** A router table that answers every pattern with round robin over
    [all_ok], and a manager holding one session. *)
Definition sample_router (pattern : string) (message : string)
    (models : list Model) : M (list Response) :=
  response ← RoundRobinRouter.route all_ok message models; ret [response].

Definition sample_manager : @SessionManager.Manager Response :=
  {| SessionManager.sessions :=
       {[ "s1" := {| SessionManager.s_id := "s1";
                     SessionManager.s_routing_pattern := "round_robin";
                     SessionManager.s_models := [A; B; C];
                     SessionManager.s_history := [];
                     SessionManager.s_metadata :=
                       {| SessionManager.created_at := "2025-11-17";
                          SessionManager.tags := [];
                          SessionManager.youtube_run := false |} |} ]};
     SessionManager.emitted := [];
     SessionManager.usage_updates := [] |}.

(** Endpoint A times out on every call. *)
Definition a_down : World :=
  world (λ _ id, bool_decide (id = "A")) "not a selection".

(** The coordinator's plan is the payload ["[0, 2]"]. *)
Definition plans_0_2 : World := world (λ _ _, false) "[0, 2]".

(** The state of a router whose cursor stands at 1. *)
Definition env1 : Env := {| calls := []; turn_index := 1 |}.

(** Two registered tool servers. *)
Definition sample_servers : gmap string MCPServerManager.ServerInfo :=
  {[ "files" := {| MCPServerManager.server := "stdio-1";
                   MCPServerManager.tools :=
                     [ MCPServerManager.mkTool "read" "Read a file" "{}";
                       MCPServerManager.mkTool "fs:write" "Write a file" "{}" ] |};
     "search" := {| MCPServerManager.server := "http-1";
                    MCPServerManager.tools :=
                      [ MCPServerManager.mkTool "web" "Search the web" "{}" ] |} ]}.

Definition gpt4 : AzureOpenAIAdapter :=
  {| deployment_name := "gpt-4-deployment";
     pricing := {[ "gpt-4-deployment" := {| rate_input := 3 # 100; rate_output := 5 # 100 |} ]} |}.

End Samples.

End Orchestrator.

(* ===================================================================== *)
(** * Properties *)
(* ===================================================================== *)

(** ** The model list editor *)

Module SessionSetupFacts.
Import Store SessionSetup.

Lemma addModel_models (st : State) :
  SessionSetup.models (addModel st) = SessionSetup.models st
  ∨ ∃ m, SessionSetup.models (addModel st) = SessionSetup.models st ++ [m]
         ∧ id m = model_tag (length (SessionSetup.models st) + 1)
         ∧ length (SessionSetup.models st) < 5.
Proof.
  unfold addModel.
  destruct (truthy _); simpl; [|by left].
  case_bool_decide; simpl; [|by left].
  right. eexists. split; [reflexivity|]. by split.
Qed.

(** [addModel] refuses a sixth model. *)
Lemma addModel_full (st : State) :
  5 ≤ length (SessionSetup.models st) → addModel st = st.
Proof.
  intros Hfull. unfold addModel.
  rewrite bool_decide_eq_false_2 by lia. by rewrite andb_false_r.
Qed.

Lemma step_length (st : State) (a : Action) :
  length (SessionSetup.models st) ≤ 5 →
  length (SessionSetup.models (step st a)) ≤ 5.
Proof.
  intros Hle. destruct a as [r|d| |x]; simpl; try done.
  - destruct (addModel_models st) as [->|(m & -> & _ & Hlt)]; [done|].
    rewrite length_app. simpl. lia.
  - etrans; [apply length_filter|done].
Qed.

(** No sequence of form actions makes the list longer than five. *)
Lemma run_length (acts : list Action) (st : State) :
  length (SessionSetup.models st) ≤ 5 →
  length (SessionSetup.models (run acts st)) ≤ 5.
Proof.
  revert st. induction acts as [|a acts IH]; intros st Hle; [done|].
  apply IH. by apply step_length.
Qed.

(** [handleStart] hands over the list only when it is not empty. *)
Lemma handleStart_nonempty (st : State) r ms :
  handleStart st = Some (r, ms) →
  r = routing st ∧ ms = SessionSetup.models st ∧ 0 < length ms.
Proof.
  unfold handleStart. case_bool_decide; [|done].
  intros [= <- <-]. done.
Qed.

Lemma handleStart_empty r d :
  handleStart {| routing := r; SessionSetup.models := []; currentModel := d |} = None.
Proof. reflexivity. Qed.

Lemma removeModel_filter_eq (x : string) (l : list ModelConfig) :
  filter (λ m, ¬ id m ≠ x) l = filter (λ m, id m = x) l.
Proof.
  apply list_filter_iff. intros m. split; [|naive_solver].
  intros Hnn. by destruct (decide (id m = x)).
Qed.

(** C10.  [removeModel x] removes exactly the entries whose identifier is
    [x]: an entry is in the new list iff it was in the old one with another
    identifier; the new list is the old one with entries struck out, so
    the survivors keep their fields and their relative order; the old list
    is, up to order, the survivors together with the old entries named
    [x]; and the routing pattern and the draft are untouched. *)
Theorem removeModel_exact_frame (x : string) (st : State) :
  (∀ m, m ∈ SessionSetup.models (removeModel x st)
        ↔ m ∈ SessionSetup.models st ∧ id m ≠ x)
  ∧ sublist (SessionSetup.models (removeModel x st)) (SessionSetup.models st)
  ∧ SessionSetup.models st ≡ₚ
      SessionSetup.models (removeModel x st)
      ++ filter (λ m, id m = x) (SessionSetup.models st)
  ∧ routing (removeModel x st) = routing st
  ∧ currentModel (removeModel x st) = currentModel st.
Proof.
  simpl. split; [|split; [|split; [|done]]].
  - intros m. rewrite list_elem_of_filter. tauto.
  - apply sublist_filter.
  - rewrite <- removeModel_filter_eq. symmetry. apply filter_app_complement.
Qed.

(** C9.  After adding two models, removing the first and adding a third,
    the two configured models carry the same identifier ["model_2"]: the
    identifier [`model_${models.length + 1}`] is taken again once the
    list has shrunk.  Removing either of them then removes both. *)
Theorem addModel_reuses_identifier :
  ids (run add_remove_add SessionSetup.initial) = ["model_2"; "model_2"]
  ∧ ¬ NoDup (ids (run add_remove_add SessionSetup.initial))
  ∧ SessionSetup.models
      (run (add_remove_add ++ [RemoveModel "model_2"]) SessionSetup.initial) = [].
Proof.
  assert (Hids : ids (run add_remove_add SessionSetup.initial) = ["model_2"; "model_2"])
    by (vm_compute; reflexivity).
  split; [exact Hids|]. split; [|vm_compute; reflexivity].
  rewrite Hids. intros Hnd.
  apply NoDup_cons in Hnd as [Hnotin _].
  apply Hnotin. left.
Qed.

(** Without removals the identifiers are [model_1], [model_2], ... in list
    order, hence distinct: the numbering is meant to give fresh names. *)
Lemma model_tag_inj : Inj (=) (=) model_tag.
Proof.
  intros a b Heq. unfold model_tag in Heq.
  apply (inj (String.app "model_")) in Heq. by apply (inj pretty) in Heq.
Qed.

Lemma ids_without_removal (acts : list Action) (st : State) :
  forallb (λ a, negb (is_removal a)) acts = true →
  ids st = model_tag <$> seq 1 (length (SessionSetup.models st)) →
  ids (run acts st)
  = model_tag <$> seq 1 (length (SessionSetup.models (run acts st))).
Proof.
  revert st. induction acts as [|a acts IH]; intros st Hno Hst; [done|].
  cbn [forallb] in Hno. apply andb_prop in Hno as [Ha Hno].
  apply IH; [done|]. destruct a as [r|d| |x]; try done. clear IH Ha Hno.
  cbn [step]. unfold ids in *.
  destruct (addModel_models st) as [->|(m & -> & Hid & _)]; [done|].
  rewrite fmap_app, length_app, Hst. cbn [length fmap list_fmap].
  rewrite Hid, seq_app, fmap_app. cbn [seq fmap list_fmap].
  by replace (1 + length (SessionSetup.models st))
    with (length (SessionSetup.models st) + 1) by lia.
Qed.

Lemma ids_distinct_without_removal (acts : list Action) :
  forallb (λ a, negb (is_removal a)) acts = true →
  NoDup (ids (run acts SessionSetup.initial)).
Proof.
  intros Hno. rewrite (ids_without_removal acts SessionSetup.initial Hno) by done.
  apply (NoDup_fmap_2 _). apply NoDup_seq.
Qed.

End SessionSetupFacts.

(** ** The conversation history *)

Module HistoryFacts.
Import Store Page Orchestrator Orchestrator.SessionManager.

Lemma onmessage_messages (clk : Clock) (data : WsData) (st : ChatStore) :
  messages (onmessage clk data st) = messages st ++ message_of clk data.
Proof. destruct data; simpl; by rewrite ?app_nil_r. Qed.

Lemma receive_messages (frames : list (Clock * WsData)) (st : ChatStore) :
  messages (receive frames st)
  = messages st ++ flat_map (λ f, message_of f.1 f.2) frames.
Proof.
  revert st. induction frames as [|f frames IH]; intros st; simpl.
  - by rewrite app_nil_r.
  - unfold receive in *. simpl. rewrite IH, onmessage_messages.
    by rewrite <- app_assoc.
Qed.

Section Manager.
Context {R : Type}.
Variable get_router : string → string → list Model → M (list R).

Lemma add_model_responses (h : list (@Entry R)) (responses : list R) :
  foldl (λ h resp, add_model_response resp h) h responses
  = h ++ (ModelEntry <$> responses).
Proof.
  revert h. induction responses as [|r rs IH]; intros h; simpl.
  - by rewrite app_nil_r.
  - rewrite IH. unfold add_model_response. by rewrite <- app_assoc.
Qed.

(** One call of [send_message] on a live session, in full: the result
    and the state are the router's, the history grows by the entries of
    the turn, the items returned are emitted, the usage is recorded. *)
Lemma send_message_exact (sid message : string) (mgr : Manager) (env : Env)
    (session : Session) :
  sessions mgr !! sid = Some session →
  send_message get_router sid message mgr env
  = let turn := get_router (s_routing_pattern session) message
                           (s_models session) env in
    (turn.1,
     {| sessions :=
          <[sid := with_history (s_history session ++ turn_entries message turn.1)
                                session]> (sessions mgr);
        emitted := emitted mgr ++ ((λ resp, (sid, resp)) <$> delivered turn.1);
        usage_updates := usage_updates mgr ++ usage_of sid turn.1 |},
     turn.2).
Proof.
  intros Hs. unfold send_message. rewrite Hs. cbv zeta.
  destruct (get_router _ message _ env) as [[responses|e] env']; simpl.
  - rewrite add_model_responses. unfold add_user_message, turn_entries.
    by rewrite <- app_assoc.
  - unfold add_user_message, turn_entries. by rewrite !app_nil_r.
Qed.

Lemma with_history_id (session : @Session R) :
  with_history (s_history session) session = session.
Proof. by destruct session. Qed.

Lemma routed_length (router : string → list Model → M (list R))
    (models : list Model) (msgs : list string) (env : Env) :
  length (routed router models msgs env).1 = length msgs.
Proof.
  revert env. induction msgs as [|message msgs IH]; intros env; [done|].
  cbn [routed]. destruct (router message models env) as [r env'].
  specialize (IH env'). destruct (routed router models msgs env') as [rs env''].
  simpl in *. by rewrite IH.
Qed.

(** Consecutive calls on a live session, in full, in terms of what the
    session's router returns call after call. *)
Lemma send_all_exact (sid : string) (msgs : list string) (mgr : Manager)
    (env : Env) (session : Session) :
  sessions mgr !! sid = Some session →
  send_all get_router sid msgs mgr env
  = let run := routed (get_router (s_routing_pattern session))
                      (s_models session) msgs env in
    ({| sessions :=
          <[sid := with_history
                     (s_history session ++ concat (zip_with turn_entries msgs run.1))
                     session]> (sessions mgr);
        emitted := emitted mgr
                   ++ ((λ resp, (sid, resp)) <$> concat (delivered <$> run.1));
        usage_updates := usage_updates mgr ++ concat (usage_of sid <$> run.1) |},
     run.2).
Proof.
  revert mgr env session. induction msgs as [|message msgs IH];
    intros mgr env session Hs.
  - cbn. rewrite !app_nil_r, with_history_id, insert_id by done. by destruct mgr.
  - unfold send_all in *. cbn [foldl fst snd].
    rewrite (send_message_exact sid message mgr env session Hs). cbv zeta.
    cbn [routed].
    destruct (get_router (s_routing_pattern session) message (s_models session) env)
      as [r env'].
    cbn [fst snd].
    set (session1 := with_history (s_history session ++ turn_entries message r) session).
    set (mgr1 := {| sessions := _; emitted := _; usage_updates := _ |}).
    assert (Hs1 : sessions mgr1 !! sid = Some session1)
      by (unfold mgr1; cbn [sessions]; apply lookup_insert_eq).
    rewrite (IH mgr1 env' session1 Hs1). cbv zeta.
    change (s_routing_pattern session1) with (s_routing_pattern session).
    change (s_models session1) with (s_models session).
    destruct (routed (get_router (s_routing_pattern session)) (s_models session)
                     msgs env') as [rs env''].
    cbn [fst snd zip_with concat fmap list_fmap]. unfold mgr1, session1.
    cbn [sessions emitted usage_updates with_history s_history s_id
         s_routing_pattern s_models s_metadata].
    rewrite insert_insert_eq. f_equal. f_equal.
    + by rewrite <- app_assoc.
    + rewrite fmap_app. by rewrite <- app_assoc.
    + by rewrite <- app_assoc.
Qed.
End Manager.

(** C8.  The history is append-only and in arrival order.  In the store,
    [addMessage] puts the message after all existing ones, and handling
    any sequence of WebSocket frames leaves the existing messages in
    place and adds, in frame order, the message of each frame.  In the
    session manager, sending messages one after the other to a live
    session keeps the session's earlier history as a prefix and appends
    one block per message in the order sent, the block of a message being
    that user message followed by exactly the items that the session's
    router returned for it, in the order returned (nothing when the
    router raised). *)
Theorem history_append_only {R : Type}
    (get_router : string → string → list Model → M (list R))
    (m : Message) (frames : list (Clock * WsData)) (st : ChatStore)
    (sid : string) (msgs : list string) (mgr : @Manager R) (env : Env)
    (session : @Session R) :
  sessions mgr !! sid = Some session →
  messages (addMessage m st) = messages st ++ [m]
  ∧ messages (receive frames st)
    = messages st ++ flat_map (λ f, message_of f.1 f.2) frames
  ∧ history_of sid (send_all get_router sid msgs mgr env).1
    = s_history session
      ++ concat (zip_with turn_entries msgs
                   (routed (get_router (s_routing_pattern session))
                           (s_models session) msgs env).1)
  ∧ length (routed (get_router (s_routing_pattern session))
                   (s_models session) msgs env).1 = length msgs.
Proof.
  intros Hs. split; [done|]. split; [apply receive_messages|].
  split; [|apply routed_length].
  rewrite (send_all_exact get_router sid msgs mgr env session Hs). cbv zeta.
  unfold history_of. cbn [fst sessions]. by rewrite lookup_insert_eq.
Qed.

Lemma history_append_only_witness :
  history_of "s1"
    (send_all Samples.sample_router "s1" ["hello"; "again"]
              Samples.sample_manager env0).1
  = [UserEntry "hello"; ModelEntry (Samples.reply Samples.A "hello");
     UserEntry "again"; ModelEntry (Samples.reply Samples.B "again")].
Proof.
  assert (Hs : sessions Samples.sample_manager !! "s1"
               = Some {| s_id := "s1"; s_routing_pattern := "round_robin";
                         s_models := [Samples.A; Samples.B; Samples.C];
                         s_history := [];
                         s_metadata := {| created_at := "2025-11-17"; tags := [];
                                          youtube_run := false |} |})
    by (vm_compute; reflexivity).
  destruct (history_append_only Samples.sample_router
              (mkMessage "1" user "hello" None "t0" None None) [] Store.initial
              "s1" ["hello"; "again"] Samples.sample_manager env0 _ Hs)
    as (_ & _ & Hh & _).
  rewrite Hh. vm_compute. reflexivity.
Defined.

End HistoryFacts.

(** ** [asyncio.gather] *)

Module GatherFacts.
Import Orchestrator.

(** Either every task succeeded and [gather] returns their values in task
    order, or some task raised and [gather] raises. *)
Lemma collect_cases {A} (rs : list (result A)) :
  (∃ l, rs = Ok <$> l ∧ collect rs = Ok l)
  ∨ (∃ e, Raise e ∈ rs ∧ collect rs = Raise e).
Proof.
  induction rs as [|[a|e] rs IH].
  - left. by exists [].
  - destruct IH as [(l & -> & Hc)|(e & Hin & Hc)].
    + left. exists (a :: l). split; [done|]. cbn [collect]. by rewrite Hc.
    + right. exists e. split; [by right|]. cbn [collect]. by rewrite Hc.
  - right. exists e. split; [by left|done].
Qed.

Lemma successes_ok {A} (l : list A) : successes (Ok <$> l) = l.
Proof. induction l as [|a l IH]; simpl; [done|]. unfold successes in *. simpl. by f_equal. Qed.

Lemma run_all_send (w : World) (msg : string) (ctx : Context)
    (models : list Model) (env : Env) :
  run_all ((λ m, send w m msg ctx) <$> models) env
  = (send_outcomes w msg ctx (length (calls env)) models,
     {| calls := calls env ++ ((λ m, CSend m msg ctx) <$> models);
        turn_index := turn_index env |}).
Proof.
  revert env. induction models as [|m ms IH]; intros env; simpl.
  - rewrite app_nil_r. by destruct env.
  - rewrite IH. simpl. rewrite length_app. simpl.
    replace (length (calls env) + 1) with (S (length (calls env))) by lia.
    by rewrite <- app_assoc.
Qed.

Lemma run_all_vote (w : World) (ps : list Response)
    (models : list Model) (env : Env) :
  run_all ((λ m, vote w m ps) <$> models) env
  = (vote_outcomes w ps (length (calls env)) models,
     {| calls := calls env ++ ((λ m, CVote m ps) <$> models);
        turn_index := turn_index env |}).
Proof.
  revert env. induction models as [|m ms IH]; intros env; simpl.
  - rewrite app_nil_r. by destruct env.
  - rewrite IH. simpl. rewrite length_app. simpl.
    replace (length (calls env) + 1) with (S (length (calls env))) by lia.
    by rewrite <- app_assoc.
Qed.

Lemma length_send_outcomes w msg ctx k models :
  length (send_outcomes w msg ctx k models) = length models.
Proof. revert k. induction models; intros k; simpl; [done|]. by rewrite IHmodels. Qed.

End GatherFacts.

(** ** Broadcast *)

Module BroadcastFacts.
Import Orchestrator Orchestrator.Samples GatherFacts.

Lemma count_app p (l k : list Event) : count p (l ++ k) = count p l + count p k.
Proof. unfold count. by rewrite List.filter_app, length_app. Qed.

Lemma count_responses (rs : list Response) :
  count is_response (EResponse <$> rs) = length rs
  ∧ count is_failure (EResponse <$> rs) = 0
  ∧ count is_complete (EResponse <$> rs) = 0.
Proof.
  unfold count. induction rs as [|r rs IH]; [done|].
  rewrite fmap_cons. cbn [List.filter is_response is_failure is_complete length].
  destruct IH as (-> & -> & ->). done.
Qed.

(** C1, as stated, fails: with endpoint B down, a broadcast to A, B and C
    raises out of [gather]; the caller receives no event at all, so the
    [response] and [failure] events do not add up to the three endpoints,
    and no [complete] event follows. *)
Lemma broadcast_failure_yields_no_events :
  let evs := events_of (BroadcastRouter.route b_down "hello" [A; B; C] env0).1 in
  count is_response evs + count is_failure evs ≠ length [A; B; C]
  ∧ count is_complete evs ≠ 1.
Proof. vm_compute. split; discriminate. Qed.

(** C1, amended.  A broadcast starts exactly one call per endpoint, in
    endpoint order.  Either every call succeeds, and the events are the N
    responses in endpoint order followed by one [complete] event whose
    totals are the sums over those responses (N [response] events, no
    [failure] event); or some call fails, and the operation raises that
    failure and returns no event. *)
Theorem broadcast_all_or_nothing (w : World) (msg : string)
    (models : list Model) (env : Env) :
  let res := (BroadcastRouter.route w msg models env).1 in
  let env' := (BroadcastRouter.route w msg models env).2 in
  let outs := send_outcomes w msg SharedHistory (length (calls env)) models in
  calls env' = calls env ++ ((λ m, CSend m msg SharedHistory) <$> models)
  ∧ turn_index env' = turn_index env
  ∧ ((∃ rs, outs = Ok <$> rs
            ∧ res = Ok ((EResponse <$> rs)
                        ++ [EComplete (sum_tokens rs) (sum_cost rs)])
            ∧ count is_response (events_of res) = length models
            ∧ count is_failure (events_of res) = 0
            ∧ count is_complete (events_of res) = 1)
     ∨ (∃ e, Raise e ∈ outs ∧ res = Raise e ∧ events_of res = [])).
Proof.
  unfold BroadcastRouter.route. simpl.
  unfold mbind, M_bind, bind, gather. rewrite run_all_send. simpl.
  set (outs := send_outcomes _ _ _ _ _).
  assert (Hlen : length outs = length models) by apply length_send_outcomes.
  destruct (collect_cases outs) as [(rs & Houts & Hc)|(e & Hin & Hc)];
    rewrite Hc; simpl.
  - split; [done|]. split; [done|]. left. exists rs.
    split; [done|]. split; [done|].
    unfold format_responses. rewrite !count_app.
    destruct (count_responses rs) as (-> & -> & ->).
    rewrite Houts, length_fmap in Hlen. rewrite Hlen.
    repeat split; unfold count; simpl; lia.
  - split; [done|]. split; [done|]. right. by exists e.
Qed.

End BroadcastFacts.

(** ** Round robin *)

Module RoundRobinFacts.
Import Orchestrator Orchestrator.Samples.

Lemma route_empty (w : World) (msg : string) (env : Env) :
  RoundRobinRouter.route w msg [] env = (Raise ZeroDivisionError, env).
Proof. reflexivity. Qed.

Lemma current_model_exists (models : list Model) (t : nat) :
  models ≠ [] → is_Some (models !! (t mod length models)).
Proof.
  intros Hne. apply lookup_lt_is_Some, Nat.mod_upper_bound.
  destruct models; [done|simpl; lia].
Qed.

(** One routing operation over a non-empty list, unfolded. *)
Lemma route_step (w : World) (msg : string) (models : list Model)
    (env : Env) (m : Model) :
  models !! (turn_index env mod length models) = Some m →
  RoundRobinRouter.route w msg models env
  = match send_outcome w (length (calls env)) m msg (TurnContext (m_role m)) with
    | Ok r => (Ok r, {| calls := calls env ++ [CSend m msg (TurnContext (m_role m))];
                        turn_index := turn_index env + 1 |})
    | Raise e => (Raise e, {| calls := calls env ++ [CSend m msg (TurnContext (m_role m))];
                              turn_index := turn_index env |})
    end.
Proof.
  intros Hm. unfold RoundRobinRouter.route.
  unfold mbind, M_bind, bind, RoundRobinRouter.get_turn_index.
  destruct (length models) as [|n] eqn:Hn.
  { destruct models; done. }
  unfold py_mod, py_getitem, ret. rewrite Hm.
  unfold send, RoundRobinRouter.set_turn_index, record.
  destruct (send_outcome w _ m msg _); reflexivity.
Qed.

Lemma rotation_S (models : list Model) (t k : nat) :
  rotation models t (S k)
  = from_option m_id "" (models !! (t mod length models))
    :: rotation models (t + 1) k.
Proof.
  unfold rotation. cbn [seq]. rewrite fmap_cons, Nat.add_0_r. f_equal.
  rewrite <- fmap_S_seq, <- list_fmap_compose.
  apply list_fmap_ext. intros _ i _. simpl.
  by replace (t + S i) with (t + 1 + i) by lia.
Qed.

(** While every call succeeds the endpoints are visited in rotation. *)
Lemma route_all_rotation (w : World) (msgs : list string)
    (models : list Model) (env : Env) :
  models ≠ [] →
  (∀ k m s c, is_ok (send_outcome w k m s c) = true) →
  dispatch_order (RoundRobinRouter.route_all w msgs models env)
  = dispatch_order env ++ rotation models (turn_index env) (length msgs).
Proof.
  intros Hne Hok. revert env.
  induction msgs as [|msg msgs IH]; intros env.
  - unfold rotation. simpl. by rewrite app_nil_r.
  - destruct (current_model_exists models (turn_index env) Hne) as [m Hm].
    unfold RoundRobinRouter.route_all in *. cbn [foldl length].
    rewrite (route_step _ _ _ _ _ Hm).
    specialize (Hok (length (calls env)) m msg (TurnContext (m_role m))).
    destruct (send_outcome w _ m msg _) as [r|e]; [|done].
    cbn [snd]. rewrite IH. cbn [turn_index].
    rewrite rotation_S, Hm. unfold dispatch_order. cbn [calls].
    rewrite fmap_app. cbn. by rewrite <- app_assoc.
Qed.




(** C7, as stated, fails: over an empty list the operation does not fail
    with a configuration error. *)
Lemma round_robin_empty_not_configuration_error :
  ¬ fails_with_configuration_error (RoundRobinRouter.route all_ok "hello" [] env0).1.
Proof. intros (e & Hres & Hcfg). vm_compute in Hres. by simplify_eq. Qed.

(** C7, amended.  Over an empty endpoint list a round-robin operation
    fails at once: it raises the [ZeroDivisionError] of
    [turn_index % len(active_models)], an arithmetic error and not a
    configuration error, before any call is made and with the cursor
    unchanged.  The session-setup form does not start a session while its
    model list is empty: whatever the user did to the form, [handleStart]
    either hands over between one and five models or, the list being
    empty, does not call [onStart]. *)
Theorem round_robin_empty_fails_fast (w : World) (msg : string) (env : Env)
    (acts : list SessionSetup.Action) :
  RoundRobinRouter.route w msg [] env = (Raise ZeroDivisionError, env)
  ∧ is_arithmetic_error ZeroDivisionError = true
  ∧ is_configuration_error ZeroDivisionError = false
  ∧ match SessionSetup.handleStart (SessionSetup.run acts SessionSetup.initial) with
    | Some (_, ms) => 0 < length ms ≤ 5
    | None => SessionSetup.models (SessionSetup.run acts SessionSetup.initial) = []
    end.
Proof.
  split; [apply route_empty|]. split; [done|]. split; [done|].
  pose proof (SessionSetupFacts.run_length acts SessionSetup.initial) as Hle.
  unfold SessionSetup.handleStart. case_bool_decide as Hpos.
  - split; [done|]. apply Hle. simpl. lia.
  - apply nil_length_inv. lia.
Qed.

End RoundRobinFacts.

(** ** Voting *)

Module VotingFacts.
Import Orchestrator Orchestrator.Samples GatherFacts.
Import VotingRouter.

Section FirstMax.
Variable score : nat → nat.

Lemma better_first_best (b s : nat) :
  first_best score b s → first_best score (better score b s) (S s).
Proof.
  intros (Hlt & Hmax & Hfirst). unfold better.
  case_bool_decide as Hcmp; repeat split.
  - lia.
  - intros j Hj. destruct (decide (j = s)) as [->|]; [lia|].
    specialize (Hmax j). lia.
  - intros j Hj Heq. destruct (decide (j = s)) as [->|]; [lia|].
    specialize (Hmax j). lia.
  - lia.
  - intros j Hj. destruct (decide (j = s)) as [->|]; [lia|].
    apply Hmax. lia.
  - intros j Hj Heq. destruct (decide (j = s)) as [->|]; [lia|].
    apply Hfirst; [lia|done].
Qed.

Lemma foldl_first_best (k b s : nat) :
  first_best score b s → first_best score (foldl (better score) b (seq s k)) (s + k).
Proof.
  revert b s. induction k as [|k IH]; intros b s Hb; simpl.
  - by rewrite Nat.add_0_r.
  - replace (s + S k) with (S s + k) by lia.
    apply IH. by apply better_first_best.
Qed.

Lemma first_max_spec (n : nat) :
  0 < n → first_best score (first_max score n) n.
Proof.
  intros Hn. destruct n as [|n]; [lia|].
  unfold first_max. change (seq 0 (S n)) with (0 :: seq 1 n).
  cbn [foldl]. unfold better at 2. rewrite bool_decide_eq_false_2 by lia.
  apply (foldl_first_best n 0 1).
  repeat split; [lia|intros j Hj..].
  - by replace j with 0 by lia.
  - lia.
Qed.
End FirstMax.

Lemma first_max_ext (f g : nat → nat) (n : nat) :
  (∀ i, f i = g i) → first_max f n = first_max g n.
Proof.
  intros Hfg. unfold first_max. generalize 0 at 1 3. generalize (seq 0 n).
  induction l as [|i l IH]; intros b; simpl; [done|].
  unfold better at 2 4. by rewrite !Hfg, IH.
Qed.

(** The count of votes for a proposal does not depend on the order in
    which the votes came in. *)
Lemma votes_for_Permutation (votes votes' : list nat) (i : nat) :
  votes' ≡ₚ votes → votes_for votes' i = votes_for votes i.
Proof. intros Hp. unfold votes_for. by rewrite Hp. Qed.

(** C3.  The tally is a function of the multiset of votes: the same votes
    in any arrival order give the same winner.  With at least one
    proposal there is a winner; no proposal has more votes than the
    winner; and every proposal with as many votes as the winner stands
    later in the endpoint ordering. *)
Theorem tally_votes_deterministic (votes votes' : list nat)
    (proposals : list Response) :
  votes' ≡ₚ votes →
  proposals ≠ [] →
  tally_votes votes' proposals = tally_votes votes proposals
  ∧ ∃ i p, winner_index votes (length proposals) = Some i
      ∧ proposals !! i = Some p
      ∧ tally_votes votes proposals = Some p
      ∧ (∀ j, j < length proposals → votes_for votes j ≤ votes_for votes i)
      ∧ (∀ j, j < length proposals →
              votes_for votes j = votes_for votes i → i ≤ j).
Proof.
  intros Hp Hne.
  assert (Hlen : 0 < length proposals) by (destruct proposals; [done|simpl; lia]).
  split.
  - unfold tally_votes, winner_index. destruct (length proposals); [done|].
    by rewrite (first_max_ext (votes_for votes') (votes_for votes))
      by (intros i; by apply votes_for_Permutation).
  - destruct (first_max_spec (votes_for votes) _ Hlen) as (Hlt & Hmax & Hfirst).
    destruct (lookup_lt_is_Some_2 proposals _ Hlt) as [p Hpi].
    exists (first_max (votes_for votes) (length proposals)), p.
    assert (Hw : winner_index votes (length proposals)
                 = Some (first_max (votes_for votes) (length proposals))).
    { unfold winner_index. destruct (length proposals); [lia|done]. }
    split; [done|]. split; [done|]. split; [|done].
    unfold tally_votes. rewrite Hw. simpl. done.
Qed.

Lemma tally_votes_deterministic_witness :
  tally_votes [0; 0; 1; 1] [reply A "a"; reply B "b"; reply C "c"]
  = tally_votes [1; 0; 1; 0] [reply A "a"; reply B "b"; reply C "c"]
  ∧ tally_votes [1; 0; 1; 0] [reply A "a"; reply B "b"; reply C "c"]
    = Some (reply A "a").
Proof.
  assert (Hp : [0; 0; 1; 1] ≡ₚ [1; 0; 1; 0]).
  { apply (bool_decide_unpack _). vm_compute. reflexivity. }
  assert (Hne : [reply A "a"; reply B "b"; reply C "c"] ≠ []) by discriminate.
  destruct (tally_votes_deterministic [1; 0; 1; 0] [0; 0; 1; 1]
              [reply A "a"; reply B "b"; reply C "c"] Hp Hne) as [Heq _].
  split; [exact Heq|]. vm_compute. reflexivity.
Defined.

Lemma voters_app (l k : list Call) (t : nat) :
  voters {| calls := l ++ k; turn_index := t |}
  = voters {| calls := l; turn_index := t |}
    ++ voters {| calls := k; turn_index := t |}.
Proof. unfold voters. simpl. apply omap_app. Qed.

Lemma voters_sends (msg : string) (ctx : Context) (models : list Model) (t : nat) :
  voters {| calls := (λ m, CSend m msg ctx) <$> models; turn_index := t |} = [].
Proof. unfold voters. simpl. induction models as [|m ms IH]; csimpl; done. Qed.

Lemma voters_votes (ps : list Response) (models : list Model) (t : nat) :
  voters {| calls := (λ m, CVote m ps) <$> models; turn_index := t |}
  = (λ m, (m, ps)) <$> models.
Proof.
  unfold voters. simpl. induction models as [|m ms IH]; csimpl; [done|].
  by rewrite IH.
Qed.

(** C6, as stated, fails: phase 2 has no filter, and with endpoint B
    down among A, B and C the proposals of A and C succeed, yet the
    failure of B raises out of the first [gather] and ends the operation:
    A and C, who proposed successfully, are never asked to vote. *)
Lemma voting_failure_ends_before_phase2 :
  let outs := send_outcomes b_down "hello" NoContext 0 [A; B; C] in
  let env' := (VotingRouter.route b_down "hello" [A; B; C] env0).2 in
  ¬ (∀ i m r, [A; B; C] !! i = Some m → outs !! i = Some (Ok r) →
              ∃ shown, (m, shown) ∈ voters env').
Proof.
  intros outs env' Hall.
  destruct (Hall 0 A (reply A "not a selection") eq_refl eq_refl) as [shown Hin].
  vm_compute in Hin. inversion Hin.
Qed.

(** C6, amended.  Phase 2 runs only when every proposal call succeeded:
    every endpoint is then asked to vote, in endpoint order, and each is
    shown the full list of proposals.  When a proposal call fails,
    [gather] raises that failure and the operation ends before phase 2:
    nobody is asked to vote, neither the endpoint that failed nor those
    that proposed successfully.  So whoever is asked to vote has proposed
    successfully and is shown exactly the successful proposals, but not
    everyone who proposed successfully is asked. *)
Theorem voting_phase2_participants (w : World) (msg : string)
    (models : list Model) (env : Env) :
  let res := (VotingRouter.route w msg models env).1 in
  let env' := (VotingRouter.route w msg models env).2 in
  let outs := send_outcomes w msg NoContext (length (calls env)) models in
  ∃ new,
    voters env' = voters env ++ new
    ∧ (∀ m shown, (m, shown) ∈ new →
         shown = successes outs
         ∧ ∃ i r, models !! i = Some m ∧ outs !! i = Some (Ok r))
    ∧ ((∃ ps, outs = Ok <$> ps ∧ new = (λ m, (m, ps)) <$> models)
       ∨ (∃ e, Raise e ∈ outs ∧ new = [] ∧ res = Raise e)).
Proof.
  unfold VotingRouter.route. simpl.
  unfold mbind, M_bind, bind, gather. rewrite run_all_send. simpl.
  set (outs := send_outcomes _ _ _ _ _).
  assert (Hlen : length outs = length models) by apply length_send_outcomes.
  destruct (collect_cases outs) as [(ps & Houts & Hc)|(e & Hin & Hc)];
    rewrite Hc; simpl.
  - rewrite run_all_vote. simpl.
    exists ((λ m, (m, ps)) <$> models). split; [|split].
    + destruct (collect (vote_outcomes _ _ _ _)); unfold ret; simpl;
        rewrite !voters_app, voters_sends, voters_votes, app_nil_r;
        by destruct env.
    + intros m shown Hin. apply list_elem_of_fmap in Hin as (m' & [= -> ->] & Hm).
      split; [by rewrite Houts, successes_ok|].
      apply list_elem_of_lookup in Hm as [i Hi]. exists i.
      assert (Hsome : is_Some (ps !! i)).
      { apply lookup_lt_is_Some. rewrite Houts, length_fmap in Hlen.
        rewrite Hlen. by apply lookup_lt_is_Some. }
      destruct Hsome as [r Hr]. exists r. split; [done|].
      by rewrite Houts, list_lookup_fmap, Hr.
    + left. by exists ps.
  - exists []. split; [|split].
    + rewrite voters_app, voters_sends, !app_nil_r. by destruct env.
    + intros m shown Hnil. by apply elem_of_nil in Hnil.
    + right. by exists e.
Qed.

End VotingFacts.

(** ** Coordinator *)

Module CoordinatorFacts.
Import Orchestrator Orchestrator.Samples GatherFacts.
Import CoordinatorRouter.

(** The list comprehension [[specialist_models[i] ... for i in selected]]
    returns the specialists named, or raises [IndexError] when a position
    is out of range. *)
Lemma for_each_select (specialists : list Model) (selected : list Z) (env : Env) :
  for_each (py_getitem_int specialists) selected env
  = match select specialists selected with
    | Some chosen => (Ok chosen, env)
    | None => (Raise IndexError, env)
    end.
Proof.
  induction selected as [|i selected IH]; [done|].
  cbn [for_each select]. unfold mbind at 1, M_bind, bind.
  unfold py_getitem_int at 1.
  destruct (index_int specialists i) as [x|]; [|done].
  unfold ret at 1. unfold mbind at 1, bind. rewrite IH.
  by destruct (select specialists selected).
Qed.

(** The whole operation, unfolded. *)
Lemma route_unfold (parse_selection : Response → result (list Z))
    (w : World) (coordinator : Model) (msg : string)
    (specialists : list Model) (env : Env) :
  route parse_selection w coordinator msg specialists env
  = let asked := calls env
                 ++ [CSend coordinator (plan_prompt msg specialists) NoContext] in
    let stop e := (Raise e, {| calls := asked; turn_index := turn_index env |}) in
    match send_outcome w (length (calls env)) coordinator
                       (plan_prompt msg specialists) NoContext with
    | Raise e => stop e
    | Ok plan =>
        match parse_selection plan with
        | Raise e => stop e
        | Ok selected =>
            match select specialists selected with
            | None => stop IndexError
            | Some chosen =>
                let sent := asked ++ ((λ m, CSend m msg NoContext) <$> chosen) in
                match collect (send_outcomes w msg NoContext
                                 (S (length (calls env))) chosen) with
                | Raise e =>
                    (Raise e, {| calls := sent; turn_index := turn_index env |})
                | Ok rs =>
                    (synthesize_outcome w (S (length (calls env)) + length chosen)
                                        coordinator rs,
                     {| calls := sent ++ [CSynthesize coordinator rs];
                        turn_index := turn_index env |})
                end
            end
        end
    end.
Proof.
  unfold route. unfold mbind, M_bind, bind. unfold send at 1. cbv zeta.
  destruct (send_outcome w _ coordinator _ NoContext) as [plan|e]; [|done].
  unfold lift. destruct (parse_selection plan) as [selected|e]; [|done].
  rewrite for_each_select.
  destruct (select specialists selected) as [chosen|]; [|done].
  unfold gather. rewrite run_all_send.
  unfold record. cbn [calls turn_index]. rewrite length_app. cbn [length].
  replace (length (calls env) + 1) with (S (length (calls env))) by lia.
  destruct (collect _) as [rs|e]; [|done].
  unfold synthesize, record. cbn [calls turn_index].
  rewrite !length_app. cbn [length]. rewrite length_fmap.
  do 2 f_equal. lia.
Qed.

Lemma index_int_in_range {A} (xs : list A) (i : Z) :
  is_Some (index_int xs i)
  ↔ (- Z.of_nat (length xs) ≤ i < Z.of_nat (length xs))%Z.
Proof.
  unfold index_int. repeat case_bool_decide; rewrite ?lookup_lt_is_Some;
    [lia|lia|]. split; [by intros [? ?]|lia].
Qed.

Lemma select_out_of_range (specialists : list Model) (selected : list Z) :
  Exists (λ i, (i < - Z.of_nat (length specialists)
                ∨ Z.of_nat (length specialists) ≤ i)%Z) selected →
  select specialists selected = None.
Proof.
  induction 1 as [i selected Hi|i selected _ IH]; cbn [select].
  - destruct (index_int specialists i) eqn:Hx; [|done].
    assert (Hs : is_Some (index_int specialists i)) by (by eexists).
    apply index_int_in_range in Hs. lia.
  - rewrite IH. by destruct (index_int specialists i).
Qed.

(** Listing every position selects every specialist. *)
Lemma select_all (pre l : list Model) :
  select (pre ++ l) (Z.of_nat <$> seq (length pre) (length l)) = Some l.
Proof.
  revert pre. induction l as [|x l IH]; intros pre; [done|].
  cbn [length seq]. rewrite fmap_cons. cbn [select].
  assert (Hx : index_int (pre ++ x :: l) (Z.of_nat (length pre)) = Some x).
  { unfold index_int. rewrite bool_decide_true by lia.
    rewrite Nat2Z.id. by apply list_lookup_middle. }
  rewrite Hx.
  specialize (IH (pre ++ [x])).
  rewrite <- app_assoc, length_app in IH. cbn [app length] in IH.
  replace (length pre + 1) with (S (length pre)) in IH by lia.
  by rewrite IH.
Qed.

(** Positions 0 and -1 of A, B, C name A and C. *)
Lemma select_ends (selected : list Z) :
  Forall (λ i, i = 0%Z ∨ i = (-1)%Z) selected →
  ∃ chosen, select [A; B; C] selected = Some chosen
            ∧ Forall (λ m, m = A ∨ m = C) chosen.
Proof.
  induction 1 as [|i selected Hi _ (chosen & Hc & Hf)].
  - by exists [].
  - cbn [select]. rewrite Hc. destruct Hi as [->| ->].
    + exists (A :: chosen). split; [done|]. constructor; [by left|done].
    + exists (C :: chosen). split; [done|]. constructor; [by right|done].
Qed.

(** C4, as stated, fails: [route] passes only the plan to
    [parse_selection], which therefore cannot know the specialists, and
    [route] has no other path to them.  Whatever [parse_selection] is and
    whatever text the coordinator returns, there is a specialist list of
    which not every member is dispatched: when the parse raises, the turn
    raises with it; when it returns positions, they either miss the
    middle one of three specialists or are out of range for a single
    one. *)
Lemma coordinator_has_no_fallback :
  ¬ ∃ (parse_selection : Response → result (list Z)) (payload : string),
      ∀ specialists,
        all_dispatched "hello" specialists
          (route parse_selection (world (λ _ _, false) payload) K "hello"
                 specialists env0).2.
Proof.
  intros (parse_selection & payload & Hall).
  assert (Hno : ∀ l : list Model, CSend B "hello" NoContext
                     ∈ ((λ m, CSend m "hello" NoContext) <$> l) → B ∈ l).
  { intros l Hin. apply list_elem_of_fmap in Hin as (m & [= <-] & Hm). done. }
  destruct (parse_selection (reply K payload)) as [selected|e] eqn:Hparse.
  - destruct (decide (Forall (λ i, i = 0%Z ∨ i = (-1)%Z) selected)) as [Hends|Hout].
    + destruct (select_ends selected Hends) as (chosen & Hsel & Hchosen).
      specialize (Hall [A; B; C] B). rewrite route_unfold in Hall. cbv zeta in Hall.
      change (send_outcome _ _ K _ NoContext) with (Ok (reply K payload)) in Hall.
      cbv beta iota in Hall.
      rewrite Hparse, Hsel in Hall.
      assert (HB : B ∉ chosen).
      { intros HB. rewrite Forall_forall in Hchosen.
        destruct (Hchosen B HB) as [[=]|[=]]. }
      destruct (collect _) as [rs|e]; cbn [snd calls env0 app] in Hall;
        specialize (Hall ltac:(set_solver));
        repeat (apply elem_of_cons in Hall as [[=]|Hall] || apply elem_of_app in Hall as [Hall|Hall]);
        try (by apply Hno in Hall); by apply elem_of_nil in Hall.
    + apply not_Forall_Exists in Hout; [|solve_decision].
      specialize (Hall [A] A). rewrite route_unfold in Hall. cbv zeta in Hall.
      change (send_outcome _ _ K _ NoContext) with (Ok (reply K payload)) in Hall.
      cbv beta iota in Hall.
      rewrite Hparse in Hall.
      rewrite select_out_of_range in Hall.
      * cbn [snd calls env0 app] in Hall. specialize (Hall ltac:(set_solver)).
        apply elem_of_cons in Hall as [[=]|Hall]. by apply elem_of_nil in Hall.
      * eapply Exists_impl; [exact Hout|]. cbn. intros i Hi.
        cbn [length]. lia.
  - specialize (Hall [A] A). rewrite route_unfold in Hall. cbv zeta in Hall.
    change (send_outcome _ _ K _ NoContext) with (Ok (reply K payload)) in Hall.
    cbv beta iota in Hall.
    rewrite Hparse in Hall. cbn [snd calls env0 app] in Hall.
    specialize (Hall ltac:(set_solver)).
    apply elem_of_cons in Hall as [[=]|Hall]. by apply elem_of_nil in Hall.
Qed.

(** C4, amended.  When the coordinator answers, the selection is whatever
    [parse_selection] makes of the plan, and [route] adds no fallback.
    If [parse_selection] raises, the turn raises the same exception and
    the coordinator's call is the only one made.  If it returns
    positions, a position out of range raises [IndexError] before any
    specialist is called; otherwise exactly the specialists at those
    positions are called, in the order listed, after which the
    coordinator synthesizes their responses, or the failure of one of
    them surfaces out of [gather].  Every specialist is selected when the
    positions returned list them all. *)
Theorem coordinator_selection (parse_selection : Response → result (list Z))
    (w : World) (coordinator : Model) (msg : string)
    (specialists : list Model) (env : Env) (plan : Response) :
  send_outcome w (length (calls env)) coordinator
               (plan_prompt msg specialists) NoContext = Ok plan →
  let out := route parse_selection w coordinator msg specialists env in
  let asked := calls env
               ++ [CSend coordinator (plan_prompt msg specialists) NoContext] in
  (∀ e, parse_selection plan = Raise e →
        out = (Raise e, {| calls := asked; turn_index := turn_index env |}))
  ∧ (∀ selected, parse_selection plan = Ok selected →
       match select specialists selected with
       | None =>
           out = (Raise IndexError,
                  {| calls := asked; turn_index := turn_index env |})
       | Some chosen =>
           let outs := send_outcomes w msg NoContext
                         (S (length (calls env))) chosen in
           ∃ rest,
             calls out.2
             = asked ++ ((λ m, CSend m msg NoContext) <$> chosen) ++ rest
             ∧ turn_index out.2 = turn_index env
             ∧ ((∃ rs, outs = Ok <$> rs
                       ∧ rest = [CSynthesize coordinator rs]
                       ∧ out.1 = synthesize_outcome w
                                   (S (length (calls env)) + length chosen)
                                   coordinator rs)
                ∨ (∃ e, Raise e ∈ outs ∧ rest = [] ∧ out.1 = Raise e))
       end)
  ∧ select specialists (Z.of_nat <$> seq 0 (length specialists))
    = Some specialists.
Proof.
  intros Hplan out asked. subst out.
  rewrite route_unfold. cbv zeta. rewrite Hplan. fold asked.
  split; [|split].
  - by intros e ->.
  - intros selected ->.
    destruct (select specialists selected) as [chosen|]; [|done].
    cbv zeta. set (outs := send_outcomes _ _ _ _ _).
    destruct (collect_cases outs) as [(rs & Houts & Hc)|(e & Hin & Hc)]; rewrite Hc.
    + exists [CSynthesize coordinator rs]. cbn [fst snd calls turn_index].
      split; [by rewrite <- app_assoc|]. split; [done|]. left. by exists rs.
    + exists []. cbn [fst snd calls turn_index].
      split; [by rewrite app_nil_r|]. split; [done|]. right. by exists e.
  - apply (select_all [] specialists).
Qed.

Lemma coordinator_selection_witness :
  route sample_parse all_ok K "hello" [A; B; C] env0
  = (Raise (ValueError "no selection"),
     {| calls := [CSend K (plan_prompt "hello" [A; B; C]) NoContext];
        turn_index := 0 |}).
Proof.
  assert (Hplan : send_outcome all_ok (length (calls env0)) K
                    (plan_prompt "hello" [A; B; C]) NoContext
                  = Ok (reply K "not a selection")) by reflexivity.
  destruct (coordinator_selection sample_parse all_ok K "hello" [A; B; C]
              env0 (reply K "not a selection") Hplan) as [Hraise _].
  apply Hraise. vm_compute. reflexivity.
Defined.

End CoordinatorFacts.

(** ** Budget ceiling *)

Module BudgetFacts.
Import Orchestrator Orchestrator.Samples Orchestrator.UsageLedger.

Lemma over_budget_spec (ceiling spent estimate : Q) :
  over_budget {| cost_limit := Some ceiling; session_cost := spent |} estimate = true
  ↔ (ceiling < spent + estimate)%Q.
Proof.
  unfold over_budget. simpl. destruct (Qlt_le_dec _ _) as [Hlt|Hle].
  - done.
  - split; [done|]. intros Hlt. by apply Qle_not_lt in Hle.
Qed.

(** A dispatch within the ceiling (the ceiling itself included), or with no
    ceiling, calls the adapter once. *)
Lemma dispatch_within_budget {Ad} `{ModelAdapter Ad} (w : World) (b : Budget)
    (adapter : Ad) (tokens : Z) (m : Model) (msg : string) (env : Env) :
  over_budget b (estimate_cost adapter tokens) = false →
  calls (dispatch w b adapter tokens m msg env).2
  = calls env ++ [CSend m msg NoContext].
Proof.
  intros Hb. unfold dispatch. rewrite Hb. unfold send.
  by destruct (send_outcome w _ m msg _).
Qed.

(** C5.  With a ceiling configured, a dispatch whose estimated cost would
    take the session's cumulative cost strictly above the ceiling is
    refused: its only result is a [failure] event of kind
    ["budget_exceeded"] naming the endpoint, and the state, hence the
    call log, is what it was: the adapter is not called. *)
Theorem budget_precheck {Ad} `{ModelAdapter Ad} (w : World)
    (adapter : Ad) (tokens : Z) (ceiling spent : Q)
    (m : Model) (msg : string) (env : Env) :
  (ceiling < spent + estimate_cost adapter tokens)%Q →
  dispatch w {| cost_limit := Some ceiling; session_cost := spent |}
           adapter tokens m msg env
  = (Ok (EFailure (m_id m) "budget_exceeded"), env).
Proof.
  intros Hlt. unfold dispatch.
  by rewrite (proj2 (over_budget_spec ceiling spent _) Hlt).
Qed.

Lemma budget_precheck_witness :
  dispatch all_ok {| cost_limit := Some 1%Q; session_cost := (95 # 100)%Q |}
           gpt4 2000 A "hello" env0
  = (Ok (EFailure "A" "budget_exceeded"), env0).
Proof.
  apply (budget_precheck all_ok gpt4 2000 1%Q (95 # 100)%Q A "hello" env0).
  vm_compute. reflexivity.
Defined.

End BudgetFacts.

(* ===================================================================== *)
(** * Further properties of the embedded code *)
(* ===================================================================== *)

(** ** The model list editor, continued *)

Module SessionSetupMore.
Import Store SessionSetup SessionSetupFacts.

Lemma filter_all {A} (P : A → Prop) `{∀ x, Decision (P x)} (l : list A) :
  Forall P l → filter P l = l.
Proof.
  induction 1 as [|x l Hx _ IH]; [done|].
  rewrite filter_cons, decide_True by done. by rewrite IH.
Qed.

Lemma filter_filter_comm {A} (P Q : A → Prop)
    `{∀ x, Decision (P x)} `{∀ x, Decision (Q x)} (l : list A) :
  filter P (filter Q l) = filter Q (filter P l).
Proof.
  induction l as [|x l IH]; [done|].
  rewrite !filter_cons.
  destruct (decide (Q x)), (decide (P x));
    rewrite ?filter_cons, ?decide_True, ?decide_False by done; by rewrite IH.
Qed.

(** Clicking "Add Model" again right after a click changes nothing: a
    successful click empties the draft, whose empty model name then fails
    the guard, and a refused click changes nothing to begin with.  One
    click adds at most one entry. *)
Theorem addModel_idempotent (st : State) (n : nat) :
  addModel (addModel st) = addModel st
  ∧ run (replicate (S n) AddModel) st = addModel st
  ∧ length (SessionSetup.models (addModel st)) ≤ S (length (SessionSetup.models st)).
Proof.
  assert (Hidem : ∀ s, addModel (addModel s) = addModel s).
  { intros s. unfold addModel at 2 3.
    destruct (truthy _ && bool_decide _) eqn:Hguard; [done|].
    unfold addModel. by rewrite Hguard. }
  split; [apply Hidem|]. split.
  - induction n as [|n IH]; [done|].
    change (run (replicate (S (S n)) AddModel) st)
      with (run (replicate (S n) AddModel) (addModel st)).
    clear IH. revert st. induction n as [|n IH]; intros st; [apply Hidem|].
    change (run (replicate (S (S n)) AddModel) (addModel st))
      with (run (replicate (S n) AddModel) (addModel (addModel st))).
    by rewrite Hidem.
  - destruct (addModel_models st) as [->|(m & -> & _)]; [lia|].
    rewrite length_app. simpl. lia.
Qed.

(** Removing an identifier that no entry carries changes nothing; removing
    the same identifier twice is removing it once; removals commute; and
    after a removal no entry carries the identifier. *)
Theorem removeModel_algebra (x y : string) (st : State) :
  (x ∉ ids st → removeModel x st = st)
  ∧ removeModel x (removeModel x st) = removeModel x st
  ∧ removeModel x (removeModel y st) = removeModel y (removeModel x st)
  ∧ x ∉ ids (removeModel x st).
Proof.
  destruct st as [r ms d]. unfold removeModel, ids. simpl.
  split; [|split; [|split]].
  - intros Hx. f_equal. apply filter_all. apply Forall_forall.
    intros m Hm Heq. apply Hx. apply list_elem_of_fmap. by exists m.
  - f_equal. apply filter_all. apply Forall_forall.
    intros m Hm. by apply list_elem_of_filter in Hm as [? _].
  - f_equal. apply filter_filter_comm.
  - intros Hin. apply list_elem_of_fmap in Hin as (m & -> & Hm).
    by apply list_elem_of_filter in Hm as [? _].
Qed.

(** As long as nothing is removed, the identifiers are [model_1],
    [model_2], ... in list order, and so pairwise distinct. *)
Theorem ids_sequential_without_removal (acts : list Action) :
  forallb (λ a, negb (is_removal a)) acts = true →
  ids (run acts SessionSetup.initial)
  = model_tag <$> seq 1 (length (SessionSetup.models (run acts SessionSetup.initial)))
  ∧ NoDup (ids (run acts SessionSetup.initial)).
Proof.
  intros Hno. split.
  - by apply ids_without_removal.
  - by apply ids_distinct_without_removal.
Qed.

Lemma ids_sequential_without_removal_witness :
  ids (run add_three SessionSetup.initial) = ["model_1"; "model_2"; "model_3"].
Proof.
  assert (Hno : forallb (λ a, negb (is_removal a)) add_three = true) by reflexivity.
  destruct (ids_sequential_without_removal add_three Hno) as [Hids _].
  rewrite Hids. vm_compute. reflexivity.
Defined.

Lemma step_temperature (st : State) (a : Action) :
  Forall default_temperature (SessionSetup.models st) →
  Forall default_temperature (SessionSetup.models (step st a)).
Proof.
  intros Hall. destruct a as [r|d| |x]; simpl; try done.
  - destruct (addModel_models st) as [->|(m & Hm & _)]; [done|].
    unfold addModel in *.
    destruct (truthy _ && bool_decide _); [|done]. simpl in *.
    apply Forall_app. split; [done|]. by repeat constructor.
  - apply Forall_forall. intros m Hm.
    apply list_elem_of_filter in Hm as [_ Hm].
    by eapply Forall_forall in Hall.
Qed.

Lemma run_temperature (acts : list Action) (st : State) :
  Forall default_temperature (SessionSetup.models st) →
  Forall default_temperature (SessionSetup.models (run acts st)).
Proof.
  revert st. induction acts as [|a acts IH]; intros st Hall; [done|].
  apply IH. by apply step_temperature.
Qed.

(** Whatever the user did to the form, pressing Start either sends no
    request (the list is empty) or sends a request with the chosen routing
    pattern and between one and five models, which are the configured
    models in order, each with temperature 0.7 and without system prompt
    or token ceiling; the request never names a coordinator or a cost
    limit. *)
Theorem form_request (acts : list Action) :
  match handleStart (run acts SessionSetup.initial) with
  | Some (r, ms) =>
      r = routing (run acts SessionSetup.initial)
      ∧ Api.q_routing_pattern (Page.session_request r ms) = r
      ∧ 0 < length (Api.q_models (Page.session_request r ms)) ≤ 5
      ∧ Api.q_provider <$> Api.q_models (Page.session_request r ms)
        = provider <$> SessionSetup.models (run acts SessionSetup.initial)
      ∧ Api.q_model_name <$> Api.q_models (Page.session_request r ms)
        = model_name <$> SessionSetup.models (run acts SessionSetup.initial)
      ∧ Api.q_role <$> Api.q_models (Page.session_request r ms)
        = role <$> SessionSetup.models (run acts SessionSetup.initial)
      ∧ Forall (λ q, Api.q_temperature q = Some (7 # 10)%Q
                     ∧ Api.q_system_prompt q = None
                     ∧ Api.q_max_tokens q = None)
               (Api.q_models (Page.session_request r ms))
      ∧ Api.q_coordinator_model_id (Page.session_request r ms) = None
      ∧ Api.q_cost_limit (Page.session_request r ms) = None
  | None => SessionSetup.models (run acts SessionSetup.initial) = []
  end.
Proof.
  pose proof (run_length acts SessionSetup.initial) as Hle.
  pose proof (run_temperature acts SessionSetup.initial) as Htemp.
  set (st := run acts SessionSetup.initial) in *.
  unfold handleStart. case_bool_decide as Hpos; [|apply nil_length_inv; lia].
  unfold Page.session_request. cbn [Api.q_routing_pattern Api.q_models
    Api.q_coordinator_model_id Api.q_cost_limit].
  rewrite length_fmap, <- !list_fmap_compose.
  split; [done|]. split; [done|]. split; [split; [done|apply Hle; simpl; lia]|].
  split; [done|]. split; [done|]. split; [done|]. split; [|done].
  apply Forall_fmap. eapply Forall_impl; [apply Htemp; constructor|].
  intros m Hm. unfold default_temperature in Hm. simpl. by rewrite Hm.
Qed.

End SessionSetupMore.

(** ** The chat page, continued *)

Module PageFacts.
Import Store Page.

Lemma onmessage_session (clk : Clock) (data : WsData) (st : ChatStore) :
  session_id (session (onmessage clk data st)) = session_id (session st)
  ∧ routing_pattern (session (onmessage clk data st)) = routing_pattern (session st)
  ∧ Store.models (session (onmessage clk data st)) = Store.models (session st)
  ∧ coordinator_model_id (session (onmessage clk data st))
    = coordinator_model_id (session st)
  ∧ status (session (onmessage clk data st)) = status (session st)
  ∧ isConnected (onmessage clk data st) = isConnected st
  ∧ ws (onmessage clk data st) = ws st.
Proof. by destruct data. Qed.

Lemma onmessage_totals (clk : Clock) (data : WsData) (st : ChatStore) :
  total_tokens (session (onmessage clk data st))
  = foldl PrimFloat.add (total_tokens (session st)) ((λ p, p.1) <$> completions [(clk, data)])
  ∧ total_cost (session (onmessage clk data st))
    = foldl PrimFloat.add (total_cost (session st)) ((λ p, p.2) <$> completions [(clk, data)]).
Proof. by destruct data. Qed.

(** The counters of the header are running sums of doubles: handling any
    sequence of frames adds to the session's token and cost totals the
    totals of its [response_complete] frames, one frame after the other
    in arrival order and with JavaScript's addition; frames of any other
    kind leave the totals as they are.  No frame changes the session's
    identifier, routing pattern, models, coordinator or status, nor the
    connection state. *)
Theorem receive_totals (frames : list (Clock * WsData)) (st : ChatStore) :
  total_tokens (session (receive frames st))
  = foldl PrimFloat.add (total_tokens (session st)) ((λ p, p.1) <$> completions frames)
  ∧ total_cost (session (receive frames st))
    = foldl PrimFloat.add (total_cost (session st)) ((λ p, p.2) <$> completions frames)
  ∧ session_id (session (receive frames st)) = session_id (session st)
  ∧ routing_pattern (session (receive frames st)) = routing_pattern (session st)
  ∧ Store.models (session (receive frames st)) = Store.models (session st)
  ∧ coordinator_model_id (session (receive frames st))
    = coordinator_model_id (session st)
  ∧ status (session (receive frames st)) = status (session st)
  ∧ isConnected (receive frames st) = isConnected st
  ∧ ws (receive frames st) = ws st.
Proof.
  revert st. induction frames as [|[clk data] frames IH]; intros st; [done|].
  change (receive ((clk, data) :: frames) st)
    with (receive frames (onmessage clk data st)).
  destruct (IH (onmessage clk data st))
    as (-> & -> & -> & -> & -> & -> & -> & -> & ->).
  destruct (onmessage_session clk data st)
    as (-> & -> & -> & -> & -> & -> & ->).
  destruct (onmessage_totals clk data st) as [-> ->].
  change ((clk, data) :: frames) with ([(clk, data)] ++ frames).
  unfold completions. rewrite omap_app, !fmap_app, !foldl_app. done.
Qed.

(** "New Session" puts the store back to its initial content, whatever
    session, messages and totals it held; only the loading flag is left
    as it was, until the closing socket's event clears it too.  Pressing
    it twice is pressing it once, and a message submitted after it is
    refused with an alert and sends nothing. *)
Theorem handleReset_initial (h : Home) (text : string) :
  store (handleReset h) = setLoading (isLoading (store h)) Store.initial
  ∧ store (onclose (handleReset h)) = Store.initial
  ∧ sessionStarted (handleReset h) = false
  ∧ handleReset (handleReset h) = handleReset h
  ∧ handleSendMessage text (handleReset h)
    = {| store := store (handleReset h); sessionStarted := false;
         sent := sent h;
         alerts := alerts h ++ ["Not connected to session"] |}.
Proof. by destruct h as [[s ms c l w] started out al]. Qed.

(** Nothing leaves the page while it is disconnected: from a disconnected
    page, and as long as no socket reports that it is open, whatever
    else happens (sessions started, frames received, errors, resets), no
    submitted text is sent, each submission is answered with the alert
    "Not connected to session", and the page stays disconnected. *)
Theorem nothing_sent_while_disconnected (evs : list HomeEvent) (h : Home) :
  isConnected (store h) = false →
  forallb (λ ev, negb (is_open ev)) evs = true →
  sent (home_run evs h) = sent h
  ∧ isConnected (store (home_run evs h)) = false
  ∧ length (alerts (home_run evs h)) ≥ length (alerts h) + length (submitted evs).
Proof.
  revert h. induction evs as [|ev evs IH]; intros h Hdis Hno.
  - simpl. repeat split; try done. lia.
  - cbn [forallb] in Hno. apply andb_prop in Hno as [Hev Hno].
    change (home_run (ev :: evs) h) with (home_run evs (home_step h ev)).
    assert (Hstep : sent (home_step h ev) = sent h
                    ∧ isConnected (store (home_step h ev)) = false
                    ∧ length (alerts (home_step h ev))
                      ≥ length (alerts h) + length (submitted [ev])).
    { destruct ev as [u [nid|msg] r ms| |clk data| | |text|]; simpl; try done;
        rewrite ?length_app; simpl; repeat split; try done; try lia.
      - by destruct data.
      - unfold handleSendMessage. rewrite Hdis. by destruct (ws (store h)).
      - unfold handleSendMessage. rewrite Hdis. by destruct (ws (store h)).
      - unfold handleSendMessage. rewrite Hdis.
        destruct (ws (store h)); simpl; rewrite length_app; simpl; lia. }
    destruct Hstep as (Hs & Hc & Ha).
    destruct (IH (home_step h ev) Hc Hno) as (-> & -> & Hal).
    split; [done|]. split; [done|].
    change (ev :: evs) with ([ev] ++ evs). unfold submitted in *.
    rewrite omap_app, length_app. lia.
Qed.

Lemma nothing_sent_while_disconnected_witness :
  sent (home_run [EvStart "ws://localhost:8000" (Created "s1") "broadcast" [];
                  EvSubmit "hello"; EvClose; EvSubmit "again"] home0) = [].
Proof.
  apply (nothing_sent_while_disconnected
           [EvStart "ws://localhost:8000" (Created "s1") "broadcast" [];
            EvSubmit "hello"; EvClose; EvSubmit "again"] home0); reflexivity.
Defined.

(** A text is sent exactly when the page holds a socket and is connected,
    and then it is sent as typed, in one frame with action
    ["send_message"] and temperature 0.7, after all earlier frames; so
    once the socket has opened on a started session, the texts submitted
    before any close, error or reset are sent in the order submitted. *)
Theorem submissions_sent_in_order (ws_url new_id routing : string)
    (models : list ModelConfig) (texts : list string) (h : Home) :
  sent (home_run (EvStart ws_url (Created new_id) routing models :: EvOpen
                  :: (EvSubmit <$> texts)) h)
  = sent h ++ ((λ text, {| o_action := "send_message"; o_content := text;
                           o_temperature := (7 # 10)%Q |}) <$> texts).
Proof.
  change (home_run (EvStart ws_url (Created new_id) routing models :: EvOpen
                    :: (EvSubmit <$> texts)) h)
    with (home_run (EvSubmit <$> texts)
            (onopen (handleStartSession ws_url (Created new_id) routing models h))).
  set (h1 := onopen _).
  assert (Hready : is_Some (ws (store h1)) ∧ isConnected (store h1) = true)
    by (split; [by eexists|done]).
  change (sent h) with (sent h1). clearbody h1. revert h1 Hready.
  induction texts as [|text texts IH]; intros h1 [[sock Hws] Hcon].
  - simpl. by rewrite app_nil_r.
  - change (home_run (EvSubmit <$> text :: texts) h1)
      with (home_run (EvSubmit <$> texts) (handleSendMessage text h1)).
    rewrite IH.
    + unfold handleSendMessage. rewrite Hws, Hcon. cbn [sent].
      by rewrite fmap_cons, <- app_assoc.
    + unfold handleSendMessage. rewrite Hws, Hcon. cbn [store ws isConnected setLoading].
      split; [by eexists|done].
Qed.

End PageFacts.

(** ** The session manager, continued *)

Module SessionManagerFacts.
Import Orchestrator Orchestrator.SessionManager HistoryFacts.

Section Manager.
Context {R : Type}.
Variable get_router : string → string → list Model → M (list R).

(** One call of [send_message], all its effects. *)
Lemma send_message_cases (sid message : string) (mgr : @Manager R) (env : Env) :
  (sessions mgr !! sid = None
   ∧ send_message get_router sid message mgr env = (Raise (KeyError sid), mgr, env))
  ∨ (∃ session,
       sessions mgr !! sid = Some session
       ∧ let routed := get_router (s_routing_pattern session) message
                                  (s_models session) env in
         send_message get_router sid message mgr env
         = (routed.1,
            {| sessions :=
                 <[sid := with_history
                            (s_history session ++ UserEntry message
                               :: (ModelEntry <$> delivered routed.1))
                            session]> (sessions mgr);
               emitted := emitted mgr ++ ((λ resp, (sid, resp)) <$> delivered routed.1);
               usage_updates := usage_updates mgr ++ usage_of sid routed.1 |},
            routed.2)).
Proof.
  unfold send_message. destruct (sessions mgr !! sid) as [session|] eqn:Hs.
  - right. exists session. split; [done|]. cbv zeta.
    destruct (get_router _ message _ env) as [[responses|e] env']; simpl.
    + rewrite add_model_responses. unfold add_user_message.
      by rewrite <- app_assoc.
    + unfold add_user_message. by rewrite !app_nil_r.
  - left. by split.
Qed.

(** [send_message] neither creates nor deletes a session, and it leaves
    every session other than the addressed one exactly as it was; so does
    any sequence of calls.  In particular a message for an unknown
    session identifier creates nothing. *)
Theorem send_all_isolation (sid : string) (msgs : list string)
    (mgr : @Manager R) (env : Env) :
  dom (sessions (send_all get_router sid msgs mgr env).1) = dom (sessions mgr)
  ∧ ∀ other, other ≠ sid →
      sessions (send_all get_router sid msgs mgr env).1 !! other
      = sessions mgr !! other.
Proof.
  revert mgr env. induction msgs as [|m msgs IH]; intros mgr env; [done|].
  unfold send_all in *. cbn [foldl fst snd].
  destruct (send_message_cases sid m mgr env) as [[Hs ->]|(session & Hs & ->)].
  - apply IH.
  - cbv zeta. cbn [fst snd].
    set (routed := get_router (s_routing_pattern session) m (s_models session) env).
    set (mgr1 := {| sessions := _; emitted := _; usage_updates := _ |}).
    destruct (IH mgr1 routed.2) as [Hdom Hother]. split.
    + rewrite Hdom. unfold mgr1. cbn [sessions].
      apply dom_insert_lookup_L. by rewrite Hs.
    + intros other Hne. rewrite Hother by done. unfold mgr1. cbn [sessions].
      by rewrite lookup_insert_ne.
Qed.

Lemma usage_of_successes (sid : string) (results : list (result (list R))) :
  concat (usage_of sid <$> results)
  = (λ items, (sid, items)) <$> successes results.
Proof.
  unfold successes. induction results as [|[items|e] results IH]; csimpl;
    [done| |done]. by rewrite IH.
Qed.

(** Over any sequence of messages sent to a live session, with [run] the
    results that the session's router returns for the messages one after
    the other: what is emitted to the frontend is exactly the items of
    those results, in order and tagged with the session identifier, and
    they are the model entries logged in the history after each user
    message; a turn whose router raised emits nothing, logs the user
    message alone and records no usage; every other turn records its
    usage once; the state left behind is the one the router's calls
    leave. *)
Theorem send_all_accounting (sid : string) (msgs : list string)
    (mgr : @Manager R) (env : Env) (session : @Session R) :
  sessions mgr !! sid = Some session →
  let run := routed (get_router (s_routing_pattern session))
                    (s_models session) msgs env in
  history_of sid (send_all get_router sid msgs mgr env).1
  = s_history session
    ++ concat (zip_with (λ u r, UserEntry u :: (ModelEntry <$> delivered r))
                        msgs run.1)
  ∧ emitted (send_all get_router sid msgs mgr env).1
    = emitted mgr ++ ((λ resp, (sid, resp)) <$> concat (delivered <$> run.1))
  ∧ usage_updates (send_all get_router sid msgs mgr env).1
    = usage_updates mgr ++ ((λ items, (sid, items)) <$> successes run.1)
  ∧ (send_all get_router sid msgs mgr env).2 = run.2.
Proof.
  intros Hs run.
  rewrite (send_all_exact get_router sid msgs mgr env session Hs). cbv zeta.
  fold run. cbn [fst snd sessions emitted usage_updates]. unfold history_of.
  cbn [sessions]. rewrite lookup_insert_eq. cbn [from_option with_history s_history].
  by rewrite usage_of_successes.
Qed.

Variable init_model : Store.ModelConfig → Model.

(** [create_session] stores the new session under the identifier it was
    given, with an empty history and the models of the configuration in
    order; every other identifier keeps its session, while a session
    already stored under the same identifier is replaced.  The first
    message sent to the new identifier runs the router of the configured
    pattern on those models, and the history then reads: the user
    message, then what the router returned. *)
Theorem create_then_send (fresh_id now message : string)
    (config : SessionConfig) (mgr : @Manager R) (env : Env) :
  let created := create_session init_model fresh_id now config mgr in
  let routed := get_router (c_routing_pattern config) message
                           (init_model <$> c_models config) env in
  sessions created.2 !! fresh_id = Some created.1
  ∧ s_history created.1 = []
  ∧ s_models created.1 = init_model <$> c_models config
  ∧ (∀ other, other ≠ fresh_id → sessions created.2 !! other = sessions mgr !! other)
  ∧ (send_message get_router fresh_id message created.2 env).1.1 = routed.1
  ∧ (send_message get_router fresh_id message created.2 env).2 = routed.2
  ∧ history_of fresh_id (send_message get_router fresh_id message created.2 env).1.2
    = UserEntry message :: (ModelEntry <$> delivered routed.1).
Proof.
  cbv zeta. unfold create_session. cbn [fst snd sessions].
  split; [apply lookup_insert_eq|]. split; [done|]. split; [done|].
  split; [intros other Hne; by rewrite lookup_insert_ne|].
  match goal with
  | |- context [send_message _ _ _ ?m _] => set (mgr1 := m)
  end.
  destruct (send_message_cases fresh_id message mgr1 env)
    as [[Hs _]|(session & Hs & ->)].
  - unfold mgr1 in Hs. cbn [sessions] in Hs. by rewrite lookup_insert_eq in Hs.
  - unfold mgr1 in Hs. cbn [sessions] in Hs. rewrite lookup_insert_eq in Hs.
    injection Hs as <-. cbv zeta. cbn [fst snd s_routing_pattern s_models s_history].
    split; [done|]. split; [done|].
    unfold history_of. cbn [sessions]. by rewrite lookup_insert_eq.
Qed.

End Manager.

(** [create_session] does not validate the configuration: a configuration
    without models yields a session, and the first message that the
    round-robin router handles for it raises [ZeroDivisionError]; by then
    the user message is in the history, no model has been called, nothing
    is emitted and no usage is recorded. *)
Theorem create_empty_then_round_robin {R : Type} (w : World)
    (items : Response → list R) (init_model : Store.ModelConfig → Model)
    (fresh_id now message : string) (config : SessionConfig)
    (mgr : @Manager R) (env : Env) :
  c_models config = [] →
  let created := create_session init_model fresh_id now config mgr in
  let sent := send_message (round_robin_router w items) fresh_id message created.2 env in
  sessions created.2 !! fresh_id = Some created.1
  ∧ sent.1.1 = Raise ZeroDivisionError
  ∧ sent.2 = env
  ∧ history_of fresh_id sent.1.2 = [UserEntry message]
  ∧ emitted sent.1.2 = emitted mgr
  ∧ usage_updates sent.1.2 = usage_updates mgr.
Proof.
  intros Hempty. cbv zeta. unfold create_session. rewrite Hempty.
  cbn [fst snd sessions fmap list_fmap].
  split; [apply lookup_insert_eq|].
  unfold send_message. cbn [sessions]. rewrite lookup_insert_eq.
  cbn [s_routing_pattern s_models s_history].
  unfold round_robin_router. unfold mbind, M_bind, bind.
  rewrite RoundRobinFacts.route_empty. cbn [fst snd sessions emitted usage_updates].
  unfold history_of. cbn [sessions]. rewrite lookup_insert_eq. done.
Qed.

Lemma create_empty_then_round_robin_witness :
  (send_message (round_robin_router Samples.all_ok (λ r, [r])) "s2" "hello"
     (create_session (λ c, mkModel (Store.id c) "") "s2" "2025-11-17"
        (mkSessionConfig "round_robin" [] [] false) Samples.sample_manager).2
     env0).1.1
  = Raise ZeroDivisionError.
Proof.
  assert (Hempty : c_models (mkSessionConfig "round_robin" [] [] false) = [])
    by reflexivity.
  exact (proj1 (proj2 (create_empty_then_round_robin Samples.all_ok (λ r, [r])
           (λ c, mkModel (Store.id c) "") "s2" "2025-11-17" "hello"
           (mkSessionConfig "round_robin" [] [] false) Samples.sample_manager env0
           Hempty))).
Defined.

Lemma send_all_accounting_witness :
  emitted (send_all Samples.sample_router "s1" ["hello"; "again"]
                    Samples.sample_manager env0).1
  = [("s1", Samples.reply Samples.A "hello");
     ("s1", Samples.reply Samples.B "again")]
  ∧ usage_updates (send_all Samples.sample_router "s1" ["hello"; "again"]
                            Samples.sample_manager env0).1
    = [("s1", [Samples.reply Samples.A "hello"]);
       ("s1", [Samples.reply Samples.B "again"])].
Proof.
  assert (Hs : sessions Samples.sample_manager !! "s1"
               = Some {| s_id := "s1"; s_routing_pattern := "round_robin";
                         s_models := [Samples.A; Samples.B; Samples.C];
                         s_history := [];
                         s_metadata := {| created_at := "2025-11-17"; tags := [];
                                          youtube_run := false |} |})
    by (vm_compute; reflexivity).
  destruct (send_all_accounting Samples.sample_router "s1" ["hello"; "again"]
              Samples.sample_manager env0 _ Hs) as (_ & He & Hu & _).
  rewrite He, Hu. vm_compute. split; reflexivity.
Defined.

End SessionManagerFacts.

(** ** Cost estimate and adapter factory *)

Module AdapterFacts.
Import Orchestrator Orchestrator.AdapterFactory.

(** The estimate of [AzureOpenAIAdapter], in double precision as Python
    computes it.  The input rate has no part in it, nor have the prices
    of other deployments, and a deployment without a price is estimated
    as one priced at zero.  At the output rate 0.05 a thousand tokens
    cost 0.05; the estimate is not additive in the token count: the
    estimates of 1 and of 7 tokens add up to more than the estimate of 8
    tokens; and a token count whose thousandth is beyond the doubles
    raises instead of returning an estimate. *)
Theorem azure_estimate_cost_properties (d other : string)
    (p : gmap string AzureFloat.Rate) (i i' o : float) (r : AzureFloat.Rate)
    (tokens : Z) :
  AzureFloat.estimate_cost
    (AzureFloat.mkAzure d (<[d := AzureFloat.mkRate i o]> p)) tokens
  = AzureFloat.estimate_cost
      (AzureFloat.mkAzure d (<[d := AzureFloat.mkRate i' o]> p)) tokens
  ∧ (other ≠ d →
     AzureFloat.estimate_cost (AzureFloat.mkAzure d (<[other := r]> p)) tokens
     = AzureFloat.estimate_cost (AzureFloat.mkAzure d p) tokens)
  ∧ (p !! d = None →
     AzureFloat.estimate_cost (AzureFloat.mkAzure d p) tokens
     = AzureFloat.estimate_cost
         (AzureFloat.mkAzure d (<[d := AzureFloat.mkRate 0 0]> p)) tokens)
  ∧ AzureFloat.estimate_cost AzureFloat.gpt4 1000 = Some AzureFloat.five_cents
  ∧ (∃ c1 c7 c8,
       AzureFloat.estimate_cost AzureFloat.gpt4 1 = Some c1
       ∧ AzureFloat.estimate_cost AzureFloat.gpt4 7 = Some c7
       ∧ AzureFloat.estimate_cost AzureFloat.gpt4 8 = Some c8
       ∧ (c8 <? c1 + c7)%float = true)
  ∧ AzureFloat.estimate_cost AzureFloat.gpt4 (10 ^ 400) = None.
Proof.
  unfold AzureFloat.estimate_cost. cbn [AzureFloat.pricing AzureFloat.deployment_name].
  split; [|split; [|split; [|split; [|split]]]].
  - by rewrite !lookup_insert_eq.
  - intros Hne. by rewrite lookup_insert_ne.
  - intros ->. by rewrite lookup_insert_eq.
  - vm_compute. reflexivity.
  - eexists _, _, _. repeat split; vm_compute; reflexivity.
  - vm_compute. reflexivity.
Qed.

(** A provider registered under a name is the one [create] constructs for
    that name, whatever class the name had before; registering leaves
    every other name as it was; and a name without a class raises
    [ValueError] with the message ["Unknown provider: "] followed by the
    name, without the constructor being called. *)
Theorem register_create {Config Adapter : Type}
    (construct : AdapterClass → Config → result Adapter)
    (name other : string) (adapter_class : AdapterClass) (config : Config)
    (table : gmap string AdapterClass) :
  create construct name config (register name adapter_class table)
  = construct adapter_class config
  ∧ (other ≠ name →
     create construct other config (register name adapter_class table)
     = create construct other config table)
  ∧ (table !! other = None →
     create construct other config table
     = Raise (ValueError ("Unknown provider: " +:+ other)))
  ∧ (is_Some (table !! other) →
     is_Some (register name adapter_class table !! other)).
Proof.
  unfold create, register. split; [|split; [|split]].
  - by rewrite lookup_insert_eq.
  - intros Hne. by rewrite lookup_insert_ne.
  - by intros ->.
  - intros Hsome. destruct (decide (name = other)) as [->|Hne].
    + rewrite lookup_insert_eq. by eexists.
    + by rewrite lookup_insert_ne.
Qed.

End AdapterFacts.

(** ** Tool names *)

Module ToolFacts.
Import Orchestrator Orchestrator.MCPServerManager.

Lemma split_colon_app (a b : string) :
  colon_free a = true → split_colon (a +:+ ":" +:+ b) = Some (a, b).
Proof.
  induction a as [|c a IH]; intros Hfree.
  - reflexivity.
  - cbn [colon_free] in Hfree. apply andb_prop in Hfree as [Hc Hfree].
    apply negb_true_iff in Hc.
    change (String c a +:+ ":" +:+ b) with (String c (a +:+ ":" +:+ b)).
    cbn [split_colon]. rewrite Hc, IH by done. done.
Qed.

Lemma call_target_schema (servers : gmap string ServerInfo)
    (name : string) (info : ServerInfo) (tool : Tool) :
  colon_free name = true →
  servers !! name = Some info →
  call_target servers (function_name (tool_schema name tool))
  = Ok (server info, tool_name tool).
Proof.
  intros Hfree Hs. unfold call_target, unpack_tool_name, tool_schema. simpl.
  rewrite split_colon_app by done. by rewrite Hs.
Qed.

(** The schemas of the requested servers, when all are registered. *)
Lemma get_tool_schemas_registered (servers : gmap string ServerInfo)
    (names : list string) :
  Forall (λ n, is_Some (servers !! n)) names →
  get_tool_schemas_for_model servers names
  = Ok (names ≫= λ n, from_option (λ info, tool_schema n <$> tools info) []
                                  (servers !! n)).
Proof.
  induction 1 as [|n names [info Hn] _ IH]; [done|].
  cbn [get_tool_schemas_for_model]. rewrite Hn, IH. csimpl. by rewrite Hn.
Qed.

(** Tool names make the round trip.  When the requested servers are
    registered under names without a colon, [get_tool_schemas_for_model]
    returns the schemas of their tools, server by server in the order
    requested; and the name of each schema, cut at its first colon as
    [handle_tool_calls] does, leads [execute_tool] back to the server the
    tool came from and to the tool's own name, even when that name
    contains colons. *)
Theorem tool_names_round_trip (servers : gmap string ServerInfo)
    (names : list string) :
  Forall (λ n, colon_free n = true ∧ is_Some (servers !! n)) names →
  ∃ schemas,
    get_tool_schemas_for_model servers names = Ok schemas
    ∧ schemas = (names ≫= λ n, from_option (λ info, tool_schema n <$> tools info) []
                                           (servers !! n))
    ∧ ∀ s, s ∈ schemas →
        ∃ n info tool,
          n ∈ names ∧ servers !! n = Some info ∧ tool ∈ tools info
          ∧ s = tool_schema n tool
          ∧ call_target servers (function_name s) = Ok (server info, tool_name tool).
Proof.
  intros Hall. eexists. split; [|split; [reflexivity|]].
  - apply get_tool_schemas_registered.
    eapply Forall_impl; [exact Hall|]. by intros n [_ ?].
  - intros s Hs. apply list_elem_of_bind in Hs as (n & Hs & Hn).
    pose proof (proj1 (Forall_forall _ _) Hall n Hn) as [Hfree [info Hinfo]].
    rewrite Hinfo in Hs. simpl in Hs.
    apply list_elem_of_fmap in Hs as (tool & -> & Htool).
    exists n, info, tool. repeat split; try done.
    by apply call_target_schema.
Qed.

Lemma tool_names_round_trip_witness :
  ∃ schemas,
    get_tool_schemas_for_model Samples.sample_servers ["search"; "files"] = Ok schemas
    ∧ function_name <$> schemas = ["search:web"; "files:read"; "files:fs:write"]
    ∧ call_target Samples.sample_servers "files:fs:write" = Ok ("stdio-1", "fs:write").
Proof.
  assert (Hall : Forall (λ n, colon_free n = true
                              ∧ is_Some (Samples.sample_servers !! n))
                        ["search"; "files"]).
  { repeat constructor; eexists; vm_compute; reflexivity. }
  destruct (tool_names_round_trip Samples.sample_servers ["search"; "files"] Hall)
    as (schemas & Hget & -> & _).
  eexists. split; [exact Hget|]. split; vm_compute; reflexivity.
Defined.

(** A request that names an unregistered server yields no schema at all:
    the call raises [KeyError] for the first such name in the order
    requested, also when servers named before it are registered. *)
Theorem get_tool_schemas_unregistered (servers : gmap string ServerInfo)
    (before after : list string) (missing : string) :
  Forall (λ n, is_Some (servers !! n)) before →
  servers !! missing = None →
  get_tool_schemas_for_model servers (before ++ missing :: after)
  = Raise (KeyError missing).
Proof.
  intros Hbefore Hmissing.
  induction Hbefore as [|n before [info Hn] _ IH]; simpl.
  - by rewrite Hmissing.
  - by rewrite Hn, IH.
Qed.

Lemma get_tool_schemas_unregistered_witness :
  get_tool_schemas_for_model Samples.sample_servers ["files"; "github"; "search"]
  = Raise (KeyError "github").
Proof.
  apply (get_tool_schemas_unregistered Samples.sample_servers ["files"] ["search"] "github").
  - repeat constructor. eexists. vm_compute. reflexivity.
  - vm_compute. reflexivity.
Defined.

End ToolFacts.

(** ** Round robin, continued *)

Module RoundRobinMore.
Import Orchestrator Orchestrator.Samples RoundRobinFacts.

Lemma mod_shift_inj (n t i j : nat) :
  i < n → j < n → (t + i) mod n = (t + j) mod n → i = j.
Proof.
  intros Hi Hj Heq.
  pose proof (Nat.div_mod_eq (t + i) n) as Hdi.
  pose proof (Nat.div_mod_eq (t + j) n) as Hdj.
  rewrite Heq in Hdi.
  set (qi := (t + i) / n) in *. set (qj := (t + j) / n) in *.
  set (r := (t + j) mod n) in *.
  destruct (decide (qi = qj)) as [Hq|Hq]; [rewrite Hq in Hdi; lia|].
  exfalso. destruct (decide (qi < qj)); nia.
Qed.

(** The indices visited in one full cycle are all the indices. *)
Lemma cycle_indices (n t : nat) :
  (λ i, (t + i) mod n) <$> seq 0 n ≡ₚ seq 0 n.
Proof.
  apply submseteq_length_Permutation; [|by rewrite length_fmap].
  apply NoDup_submseteq.
  - apply NoDup_fmap_2_strong; [|apply NoDup_seq].
    intros i j Hi%elem_of_seq Hj%elem_of_seq. apply mod_shift_inj; lia.
  - intros x Hx. apply list_elem_of_fmap in Hx as (i & -> & Hi%elem_of_seq).
    apply elem_of_seq. split; [lia|]. simpl. apply Nat.mod_upper_bound. lia.
Qed.

Lemma ids_by_index (models : list Model) :
  (λ j, from_option m_id "" (models !! j)) <$> seq 0 (length models)
  = m_id <$> models.
Proof.
  apply list_eq. intros i. rewrite !list_lookup_fmap.
  destruct (decide (i < length models)) as [Hlt|Hge].
  - rewrite lookup_seq_lt by done. simpl.
    destruct (lookup_lt_is_Some_2 models i Hlt) as [m Hm]. by rewrite Hm.
  - rewrite lookup_seq_ge by lia. by rewrite lookup_ge_None_2 by lia.
Qed.

Lemma rotation_cycle (models : list Model) (t : nat) :
  rotation models t (length models) ≡ₚ m_id <$> models.
Proof.
  unfold rotation.
  change ((λ i, from_option m_id "" (models !! ((t + i) mod length models)))
          <$> seq 0 (length models))
    with ((λ j, from_option m_id "" (models !! j))
          ∘ (λ i, (t + i) mod length models) <$> seq 0 (length models)).
  rewrite list_fmap_compose. by rewrite cycle_indices, ids_by_index.
Qed.

(** One full cycle is fair: while the calls succeed, as many consecutive
    messages as there are endpoints are dispatched to each endpoint
    exactly once, wherever the cursor stood before. *)
Theorem full_cycle_visits_each_once (w : World) (msgs : list string)
    (models : list Model) (env : Env) :
  models ≠ [] →
  (∀ k m s c, is_ok (send_outcome w k m s c) = true) →
  length msgs = length models →
  dispatch_order (RoundRobinRouter.route_all w msgs models env)
  ≡ₚ dispatch_order env ++ (m_id <$> models).
Proof.
  intros Hne Hok Hlen.
  rewrite (route_all_rotation w msgs models env Hne Hok), Hlen.
  by rewrite rotation_cycle.
Qed.

Lemma full_cycle_visits_each_once_witness :
  dispatch_order (RoundRobinRouter.route_all all_ok ["m1"; "m2"; "m3"] [A; B; C] env1)
  ≡ₚ ["A"; "B"; "C"].
Proof.
  assert (Hne : [A; B; C] ≠ []) by discriminate.
  apply (full_cycle_visits_each_once all_ok ["m1"; "m2"; "m3"] [A; B; C] env1 Hne).
  - intros k m s c. reflexivity.
  - reflexivity.
Defined.

(** A failing endpoint keeps the turn: as long as the calls to the
    endpoint under the cursor raise, every message is dispatched to that
    same endpoint and the cursor does not move. *)
Theorem failing_endpoint_keeps_turn (w : World) (msgs : list string)
    (models : list Model) (env : Env) (stuck : Model) :
  models !! (turn_index env mod length models) = Some stuck →
  (∀ k s c, is_ok (send_outcome w k stuck s c) = false) →
  dispatch_order (RoundRobinRouter.route_all w msgs models env)
  = dispatch_order env ++ replicate (length msgs) (m_id stuck)
  ∧ turn_index (RoundRobinRouter.route_all w msgs models env) = turn_index env.
Proof.
  intros Hstuck Hfail. revert env Hstuck.
  induction msgs as [|msg msgs IH]; intros env Hstuck.
  - simpl. by rewrite app_nil_r.
  - unfold RoundRobinRouter.route_all in *. cbn [foldl length replicate].
    rewrite (route_step _ _ _ _ _ Hstuck).
    specialize (Hfail (length (calls env)) msg (TurnContext (m_role stuck))).
    destruct (send_outcome w _ stuck msg _) as [r|e]; [done|].
    cbn [snd].
    match goal with
    | |- context [foldl _ ?e msgs] => destruct (IH e) as [-> ->]; [done|]
    end.
    cbn [turn_index]. split; [|done].
    unfold dispatch_order. cbn [calls]. rewrite fmap_app. cbn.
    by rewrite <- app_assoc.
Qed.

Lemma failing_endpoint_keeps_turn_witness :
  dispatch_order (RoundRobinRouter.route_all b_down ["m1"; "m2"; "m3"] [A; B; C] env1)
  = ["B"; "B"; "B"]
  ∧ turn_index (RoundRobinRouter.route_all b_down ["m1"; "m2"; "m3"] [A; B; C] env1) = 1.
Proof.
  apply (failing_endpoint_keeps_turn b_down ["m1"; "m2"; "m3"] [A; B; C] env1 B).
  - reflexivity.
  - intros k s c. reflexivity.
Defined.

(** Over an empty endpoint list no message has any effect on the router.
    Over a non-empty list every message makes exactly one call, and the
    cursor never goes back nor advances by more than one per message. *)
Theorem one_call_per_message (w : World) (msgs : list string)
    (models : list Model) (env : Env) :
  RoundRobinRouter.route_all w msgs [] env = env
  ∧ (models ≠ [] →
     length (calls (RoundRobinRouter.route_all w msgs models env))
     = length (calls env) + length msgs
     ∧ turn_index env ≤ turn_index (RoundRobinRouter.route_all w msgs models env)
       ≤ turn_index env + length msgs).
Proof.
  split.
  - induction msgs as [|msg msgs IH]; [done|].
    unfold RoundRobinRouter.route_all in *. cbn [foldl].
    by rewrite route_empty.
  - intros Hne. revert env. induction msgs as [|msg msgs IH]; intros env.
    + simpl. lia.
    + destruct (current_model_exists models (turn_index env) Hne) as [m Hm].
      unfold RoundRobinRouter.route_all in *. cbn [foldl length].
      rewrite (route_step _ _ _ _ _ Hm).
      destruct (send_outcome w _ m msg _) as [r|e]; cbn [snd];
        match goal with
        | |- context [foldl _ ?e msgs] => destruct (IH e) as (-> & Hlo & Hhi)
        end;
        cbn [calls turn_index] in *; rewrite length_app; simpl; lia.
Qed.

End RoundRobinMore.

(** ** Coordinator, continued *)

Module CoordinatorMore.
Import Orchestrator Orchestrator.Samples Orchestrator.CoordinatorRouter.

(** When the coordinator's own call raises, the turn raises the same
    exception and that call is the only one made: no specialist is
    dispatched and nothing is synthesized, whatever [parse_selection]
    is. *)
Theorem coordinator_failure_stops_turn
    (parse_selection : Response → result (list Z))
    (w : World) (coordinator : Model) (msg : string)
    (specialists : list Model) (env : Env) (e : exn) :
  send_outcome w (length (calls env)) coordinator
               (plan_prompt msg specialists) NoContext = Raise e →
  route parse_selection w coordinator msg specialists env
  = (Raise e,
     {| calls := calls env ++ [CSend coordinator (plan_prompt msg specialists) NoContext];
        turn_index := turn_index env |}).
Proof.
  intros Hplan. unfold route, mbind, M_bind, bind, send. by rewrite Hplan.
Qed.

Lemma coordinator_failure_stops_turn_witness :
  dispatch_order (route sample_parse a_down A "hello" [A; B; C] env0).2 = ["A"].
Proof.
  rewrite (coordinator_failure_stops_turn sample_parse a_down A "hello" [A; B; C]
             env0 (AdapterError "timeout")); reflexivity.
Defined.

(** A selection that names a position outside the specialist list, at or
    beyond its length or below minus its length, stops the turn with
    [IndexError] before any specialist is called, also when other
    positions of the selection are valid. *)
Theorem selection_out_of_range (parse_selection : Response → result (list Z))
    (w : World) (coordinator : Model) (msg : string)
    (specialists : list Model) (env : Env) (plan : Response)
    (selected : list Z) :
  send_outcome w (length (calls env)) coordinator
               (plan_prompt msg specialists) NoContext = Ok plan →
  parse_selection plan = Ok selected →
  Exists (λ i, (i < - Z.of_nat (length specialists)
                ∨ Z.of_nat (length specialists) ≤ i)%Z) selected →
  route parse_selection w coordinator msg specialists env
  = (Raise IndexError,
     {| calls := calls env ++ [CSend coordinator (plan_prompt msg specialists) NoContext];
        turn_index := turn_index env |}).
Proof.
  intros Hplan Hparse Hout. rewrite CoordinatorFacts.route_unfold. cbv zeta.
  rewrite Hplan, Hparse. by rewrite (CoordinatorFacts.select_out_of_range _ _ Hout).
Qed.

Lemma selection_out_of_range_witness :
  route sample_parse plans_0_2 A "hello" [A; B] env0
  = (Raise IndexError,
     {| calls := [CSend A (plan_prompt "hello" [A; B]) NoContext]; turn_index := 0 |}).
Proof.
  apply (selection_out_of_range sample_parse plans_0_2 A "hello" [A; B] env0
           (reply A "[0, 2]") [0%Z; 2%Z]).
  - reflexivity.
  - vm_compute. reflexivity.
  - apply Exists_cons_tl, Exists_cons_hd. simpl. lia.
Defined.

End CoordinatorMore.

(** ** Voting, continued *)

Module VotingMore.
Import Orchestrator Orchestrator.Samples GatherFacts.

Lemma collect_values {A} (l : list A) : collect (Ok <$> l) = Ok l.
Proof.
  induction l as [|a l IH]; [done|].
  rewrite fmap_cons. cbn [collect]. by rewrite IH.
Qed.

(** When every proposal call succeeds, the operation makes exactly one
    proposal call and then one vote call per endpoint, in endpoint order,
    each vote call carrying the full proposal list.  If a vote call
    raises, the operation raises and names no winner, although every
    endpoint has been asked to vote; otherwise it returns the tally of
    the votes in endpoint order. *)
Theorem voting_calls (w : World) (msg : string) (models : list Model)
    (env : Env) (ps : list Response) :
  send_outcomes w msg NoContext (length (calls env)) models = Ok <$> ps →
  let res := (VotingRouter.route w msg models env).1 in
  let env' := (VotingRouter.route w msg models env).2 in
  let ballots := vote_outcomes w ps (length (calls env) + length models) models in
  calls env' = calls env ++ ((λ m, CSend m msg NoContext) <$> models)
                         ++ ((λ m, CVote m ps) <$> models)
  ∧ turn_index env' = turn_index env
  ∧ ((∃ e, Raise e ∈ ballots ∧ res = Raise e)
     ∨ (∃ votes, ballots = Ok <$> votes
                 ∧ res = Ok (VotingRouter.tally_votes votes ps))).
Proof.
  intros Houts. cbv zeta.
  unfold VotingRouter.route, mbind, M_bind, bind, gather.
  rewrite run_all_send, Houts, collect_values, run_all_vote.
  cbn [calls turn_index]. rewrite length_app, length_fmap.
  set (ballots := vote_outcomes _ _ _ _).
  destruct (collect_cases ballots) as [(votes & Hb & Hc)|(e & Hin & Hc)];
    rewrite Hc; cbn [fst snd calls turn_index ret].
  - split; [by rewrite <- app_assoc|]. split; [done|]. right. by exists votes.
  - split; [by rewrite <- app_assoc|]. split; [done|]. left. by exists e.
Qed.

Lemma voting_calls_witness :
  dispatch_order (VotingRouter.route all_ok "hello" [A; B; C] env0).2
  = ["A"; "B"; "C"; "A"; "B"; "C"].
Proof.
  assert (Houts : send_outcomes all_ok "hello" NoContext (length (calls env0)) [A; B; C]
                  = Ok <$> [reply A "not a selection"; reply B "not a selection";
                            reply C "not a selection"]) by reflexivity.
  destruct (voting_calls all_ok "hello" [A; B; C] env0 _ Houts) as (Hcalls & _ & _).
  unfold dispatch_order. rewrite Hcalls. reflexivity.
Defined.

End VotingMore.
